(** * The race-time predictor of the Strava performance toolkit

    A shallow embedding of [server/src/index.ts] (the part that the source
    itself heads [server/src/predictor.ts]): recency weights, median, the
    weighted log-log regression [fitPowerLaw], the formatting helpers, the
    normalisation of Strava activities and the request handler
    [predictPerformance].

    Numbers.  The source computes with JavaScript numbers, which are
    binary64.  The file reads the numeric code twice.

    In the first reading a finite number is a real number of [R] and the
    arithmetic is exact: rounding, overflow and underflow are outside of it.
    It carries what does not depend on them: which records are kept, the
    gates and their order, the divisions and their divisors, the texts of the
    response.  The three non-finite values appear where the source tests for
    them, in the type [num] of the values that [Number(...)] returns on
    untrusted input.  [Math.log], [Math.exp], [Math.pow] and [Math.sqrt] are
    [ln], [exp], [Rpower] and [sqrt]; [ln] and [Rpower] agree with the
    JavaScript functions on positive arguments only, which is where the
    handler applies them in this reading: to the distances and moving times
    of points that passed normalisation ([fit_points_positive]) and to a
    positive target.

    In the second reading, the module [Binary64], the numeric core (the
    recency weight, the median, the filters, the fit, the prediction and its
    bounds) is embedded over the binary64 numbers themselves, with
    [Math.log], [Math.exp] and [Math.pow] as the functions of a runtime.
    What the code computes where rounding, underflow or overflow decide is
    stated there: the determinant of points of one distance, the weight of a
    very old run, the order of the bounds.

    Division.  [x / y] of [R] is total, whereas the source's quotient by zero
    is an infinity or NaN.  Every division whose divisor is not a literal is
    therefore written with [divide], which records the divisor: a computation
    of type [Div A] returns its value together with the divisors it divided
    by, in order.

    Time.  A valid [Date] is its time value, an integer number of
    milliseconds.  [fitPowerLaw] reads the clock once ([new Date()]); the
    reading is the parameter [now].

    Around the predictor.  The file also embeds, of the same source file,
    the resolution of the user ([getUserId]), the two copies of the token
    refresh (state passing over the table of users, the answer of Strava
    being a parameter) and the weather route; and of the app, the scoring of
    the run planner and the request that the predictor screen sends. *)

From Stdlib Require Import Floats.
From Stdlib Require Uint63.
From Stdlib Require Import Reals Lra Lia ZArith String Ascii Bool List.
From Stdlib Require Import DecimalString DecimalZ DecimalPos Permutation.
Import ListNotations.

(** A decimal literal of type [float] denotes the nearest binary64 number,
    as it does in JavaScript. *)
Set Warnings "-inexact-float".

Open Scope R_scope.

(** ** Numbers and comparisons *)

(** The result of [Number(v)] on an arbitrary value. *)
Inductive num : Type :=
| Fin (r : R)
| PInf
| NInf
| NaN.

Definition isFinite (n : num) : bool :=
  match n with
  | Fin _ => true
  | _ => false
  end.

(** [x < y], [x <= y], [x > y], [x >= y] and [x === y] on finite numbers. *)
Definition ltb (x y : R) : bool := if Rlt_dec x y then true else false.
Definition leb (x y : R) : bool := if Rle_dec x y then true else false.
Definition gtb (x y : R) : bool := ltb y x.
Definition geb (x y : R) : bool := leb y x.
Definition eqb (x y : R) : bool := if Req_dec_T x y then true else false.

(** [Math.floor], [Math.round] (ties go up) and [Math.trunc]. *)
Definition floor (x : R) : Z := Int_part x.
Definition round (x : R) : Z := floor (x + 1 / 2).
Definition trunc (x : R) : Z := if leb 0 x then floor x else (- floor (- x))%Z.

(** [x % y] on numbers: the remainder has the sign of the dividend. *)
Definition fmod (x y : R) : R := x - y * IZR (trunc (x / y)).

(** ** Computations that record their divisors *)

Definition Div (A : Type) : Type := (A * list R)%type.

Definition ret {A : Type} (a : A) : Div A := (a, []).

Definition bind {A B : Type} (m : Div A) (k : A -> Div B) : Div B :=
  let (a, ds) := m in
  let (b, ds') := k a in
  (b, ds ++ ds').

Definition divide (x y : R) : Div R := (x / y, [y]).

Definition value {A : Type} (m : Div A) : A := fst m.
Definition divisors {A : Type} (m : Div A) : list R := snd m.

Notation "x <- m ;; k" := (bind m (fun x => k))
  (at level 61, m at next level, right associativity).

(** [l.map(f)] and [l.filter(f)] for an [f] that divides. *)
Fixpoint mapD {A B : Type} (f : A -> Div B) (l : list A) : Div (list B) :=
  match l with
  | [] => ret []
  | a :: l' => b <- f a ;; bs <- mapD f l' ;; ret (b :: bs)
  end.

Fixpoint filterD {A : Type} (f : A -> Div bool) (l : list A) : Div (list A) :=
  match l with
  | [] => ret []
  | a :: l' =>
      keep <- f a ;; rest <- filterD f l' ;;
      ret (if keep then a :: rest else rest)
  end.

(** ** Tunables *)

Definition HALF_LIFE_DAYS : R := 60.
Definition MIN_DISTANCE_M : R := 800.
Definition MIN_POINTS : nat := 4.
Definition MIN_MOVE_ELAPSED_RATIO : R := 0.8.

(** ** Recency weight and median *)

(** The time value of a valid [Date], in milliseconds. *)
Definition Date : Type := Z.
Bind Scope Z_scope with Date.
Definition getTime (d : Date) : R := IZR d.

(** In exact arithmetic; [Binary64.recencyWeight] is the weight as the code
    computes it, which is zero once the power underflows. *)
Definition recencyWeight (start now : Date) : R :=
  let ms := Rmax 0 (getTime now - getTime start) in
  let days := ms / 86400000 in
  Rpower 0.5 (days / HALF_LIFE_DAYS).

(** [[...nums].sort((a, b) => a - b)]: the ascending rearrangement of the
    numbers; equal numbers are indistinguishable, so every sorting algorithm
    returns the same list. *)
Fixpoint insert (a : R) (l : list R) : list R :=
  match l with
  | [] => [a]
  | b :: l' => if leb a b then a :: l else b :: insert a l'
  end.

Fixpoint sort (l : list R) : list R :=
  match l with
  | [] => []
  | a :: l' => insert a (sort l')
  end.

Definition median (nums : list R) : R :=
  let n := length nums in
  if Nat.eqb n 0 then 0 else
  let arr := sort nums in
  let mid := Nat.div n 2 in
  if Nat.eqb (Nat.modulo n 2) 1 then nth mid arr 0
  else (nth (mid - 1) arr 0 + nth mid arr 0) / 2.

(** ** Points and the power-law fit *)

Record Point : Type := mkPoint {
  distance : R;
  movingTime : R;
  elapsedTime : option R;
  startDate : Date
}.

Record Fit : Type := mkFit {
  logA : R;
  b : R;
  rmseLog : R
}.

(** The five running sums of the first loop of [fitPowerLaw]. *)
Record Sums : Type := mkSums {
  sw : R;
  swx : R;
  swy : R;
  swxx : R;
  swxy : R
}.

Definition accumulate (s : Sums) (wxy : R * (R * R)) : Sums :=
  let '(wi, (xi, yi)) := wxy in
  {| sw := sw s + wi;
     swx := swx s + wi * xi;
     swy := swy s + wi * yi;
     swxx := swxx s + wi * xi * xi;
     swxy := swxy s + wi * xi * yi |}.

Definition sums (w x y : list R) : Sums :=
  fold_left accumulate (combine w (combine x y)) (mkSums 0 0 0 0 0).

(** The second loop: the weighted sum of squared residuals. *)
Definition residuals (beta0 beta1 : R) (w x y : list R) : R :=
  fold_left
    (fun sse wxy =>
       let '(wi, (xi, yi)) := wxy in
       let yhat := beta0 + beta1 * xi in
       let r := yi - yhat in
       sse + wi * r * r)
    (combine w (combine x y)) 0.

Definition determinant (s : Sums) : R := sw s * swxx s - swx s * swx s.

(** In exact arithmetic: [!isFinite(det)] never holds of a real number, the
    test is the constant [false] here, and the two tests that remain are the
    ones below.  The sums are exact, so that the determinant of points of
    one distance is zero; [Binary64.fitPowerLaw] has the three tests and the
    sums as the code rounds them. *)
Definition fitPowerLaw (now : Date) (points : list Point) : Div (option Fit) :=
  if Nat.ltb (length points) 2 then ret None else
  let x := map (fun p => ln (distance p)) points in
  let y := map (fun p => ln (movingTime p)) points in
  let w := map (fun p => recencyWeight (startDate p) now) points in
  let s := sums w x y in
  let det := determinant s in
  if ltb (Rabs det) 1e-12 || eqb (sw s) 0 then ret None else
  beta0 <- divide (swy s * swxx s - swx s * swxy s) det ;;
  beta1 <- divide (sw s * swxy s - swx s * swy s) det ;;
  let sse := residuals beta0 beta1 w x y in
  q <- divide sse (sw s) ;;
  ret (Some {| logA := beta0; b := beta1; rmseLog := sqrt q |}).

(** In exact arithmetic, where the two factors are positive and finite;
    in [Binary64.predictSeconds] they can be a zero and an infinity. *)
Definition predictSeconds (logA b distanceM : R) : R :=
  exp logA * Rpower distanceM b.

(** ** Formatting *)

Open Scope string_scope.

(** [n.toString()] of an integer-valued number, in decimal notation. *)
Definition toString (z : Z) : string := NilZero.string_of_int (Z.to_int z).

(** [s.padStart(2, "0")]. *)
Definition padStart2 (s : string) : string :=
  match String.length s with
  | O => "00"
  | S O => "0" ++ s
  | _ => s
  end.

Definition formatHHMMSS (totalSec : R) : string :=
  let sec := Z.max 0 (round totalSec) in
  let h := Z.div sec 3600 in
  let m := Z.div (Z.rem sec 3600) 60 in
  let s := Z.rem sec 60 in
  if Z.eqb h 0
  then toString m ++ ":" ++ padStart2 (toString s)
  else toString h ++ ":" ++ padStart2 (toString m) ++ ":" ++ padStart2 (toString s).

Definition pacePerKm (totalSec km : R) : Div string :=
  spk <- (if gtb km 0 then divide totalSec km else ret 0%R) ;;
  let mm := floor (spk / 60) in
  let ss := round (fmod spk 60) in
  ret (toString mm ++ ":" ++ padStart2 (toString ss) ++ "/km").

(** [Number(x.toFixed(1))]: the nearest multiple of one tenth, a tie going
    away from zero. *)
Definition toFixed1 (x : R) : R :=
  if ltb x 0 then (- (IZR (round (- x * 10)) / 10))%R
  else (IZR (round (x * 10)) / 10)%R.

(** ** Normalising a Strava activity *)

(** What [mapStravaAct] reads of an activity object [a]:
    - [a_type]: [a.type], [None] when it is null or undefined;
    - [a_distance], [a_moving_time]: [Number(a.distance)] and
      [Number(a.moving_time)];
    - [a_elapsed_time]: [None] when [a.elapsed_time == null], otherwise
      [Number(a.elapsed_time)];
    - [a_start_date]: the time value of [new Date(String(a.start_date))],
      [None] when the date is invalid. *)
Record Activity : Type := mkActivity {
  a_type : option string;
  a_distance : num;
  a_moving_time : num;
  a_elapsed_time : option num;
  a_start_date : option Date
}.

Definition lowerChar (c : ascii) : ascii :=
  let n := nat_of_ascii c in
  if Nat.leb 65 n && Nat.leb n 90 then ascii_of_nat (n + 32) else c.

Fixpoint toLowerCase (s : string) : string :=
  match s with
  | EmptyString => EmptyString
  | String c s' => String (lowerChar c) (toLowerCase s')
  end.

(** [a.type?.toLowerCase() !== "run"]. *)
Definition isRun (ty : option string) : bool :=
  match ty with
  | Some s => String.eqb (toLowerCase s) "run"
  | None => false
  end.

(** An element of the activity array is [None] when it is falsy ([!a]). *)
Definition mapStravaAct (a : option Activity) : option Point :=
  match a with
  | None => None
  | Some a =>
      if negb (isRun (a_type a)) then None else
      match a_distance a, a_moving_time a, a_start_date a with
      | Fin distance, Fin movingTime, Some startDate =>
          Some {| distance := distance;
                  movingTime := movingTime;
                  elapsedTime :=
                    match a_elapsed_time a with
                    | Some (Fin elapsedMaybe) => Some elapsedMaybe
                    | _ => None
                    end;
                  startDate := startDate |}
      | _, _, _ => None
      end
  end.

(** [xs.map(f).filter(p => p !== null)]. *)
Fixpoint mapNotNull {A B : Type} (f : A -> option B) (l : list A) : list B :=
  match l with
  | [] => []
  | a :: l' =>
      match f a with
      | Some b => b :: mapNotNull f l'
      | None => mapNotNull f l'
      end
  end.

(** ** The request handler *)

Record Prediction : Type := mkPrediction {
  distance_km : R;
  prediction_seconds : R;
  prediction_time : string;
  pace_per_km : string;
  confidence_low_time : string;
  confidence_high_time : string;
  model : Fit;
  used_points : nat
}.

(** [res.status(s).json({ error })] and [res.json(prediction)]. *)
Inductive Response : Type :=
| ErrorJson (status : nat) (error : string)
| PredictionJson (p : Prediction).

(** What the handler reads of the request: the identity that [getUserId]
    resolves, and [Number(req.query.distance_km)] when the parameter is
    present. *)
Record Request : Type := mkRequest {
  userId : option string;
  query_distance_km : option num
}.

(** Step 1 of the pipeline (source lines 361-364). *)
Definition normalize (acts : list (option Activity)) : list Point :=
  filter (fun p => gtb (distance p) MIN_DISTANCE_M && gtb (movingTime p) 0)
         (mapNotNull mapStravaAct acts).

(** The predicate of the pause filter (source lines 371-374). *)
Definition pauseKeep (p : Point) : Div bool :=
  match elapsedTime p with
  | None => ret true
  | Some elapsed =>
      if leb elapsed 0 then ret true else
      ratio <- divide (movingTime p) elapsed ;;
      ret (geb ratio MIN_MOVE_ELAPSED_RATIO)
  end.

Definition pauseFilter (pts : list Point) : Div (list Point) :=
  filterD pauseKeep pts.

(** [pts.filter((_p, i) => f(i))]. *)
Fixpoint filterIndex {A : Type} (f : nat -> bool) (i : nat) (l : list A)
  : list A :=
  match l with
  | [] => []
  | a :: l' =>
      if f i then a :: filterIndex f (S i) l' else filterIndex f (S i) l'
  end.

(** Outlier clipping by pace (source lines 380-386). *)
Definition outlierFilter (pts : list Point) : Div (list Point) :=
  paces <- mapD (fun p => divide (movingTime p) (distance p)) pts ;;
  let med := median paces in
  let low := (0.5 * med)%R in
  let high := (2.0 * med)%R in
  ret (filterIndex
         (fun i => let pace := nth i paces 0%R in geb pace low && leb pace high)
         0 pts).

(** The two bounds in exact arithmetic, where the exponential undoes the
    logarithm; [Binary64.respond] has them as the code rounds them. *)
Definition lowBound (predSec rmseLog : R) : R := exp (ln predSec - rmseLog).
Definition highBound (predSec rmseLog : R) : R := exp (ln predSec + rmseLog).

(** The response to a fit that succeeded (source lines 394-409). *)
Definition respond (targetKm : R) (fit : Fit) (used : nat) : Div Response :=
  let targetM := (targetKm * 1000)%R in
  let predSec := predictSeconds (logA fit) (b fit) targetM in
  let lowSec := lowBound predSec (rmseLog fit) in
  let highSec := highBound predSec (rmseLog fit) in
  pace <- pacePerKm predSec targetKm ;;
  ret (PredictionJson
         {| distance_km := targetKm;
            prediction_seconds := toFixed1 predSec;
            prediction_time := formatHHMMSS predSec;
            pace_per_km := pace;
            confidence_low_time := formatHHMMSS lowSec;
            confidence_high_time := formatHHMMSS highSec;
            model := fit;
            used_points := used |}).

(** [Number(req.query.distance_km ?? "5.0")]. *)
Definition targetKmOf (req : Request) : num :=
  match query_distance_km req with
  | Some n => n
  | None => Fin 5.0
  end.

(** [fetched] is what [getActivities] returned, [None] when fetching the
    token or the activities threw (the [catch] branch). *)
Definition predictPerformance
  (req : Request) (fetched : option (list (option Activity))) (now : Date)
  : Div Response :=
  match userId req with
  | None => ret (ErrorJson 401 "Unauthorized")
  | Some _ =>
  match targetKmOf req with
  | PInf | NInf | NaN => ret (ErrorJson 400 "Invalid distance_km")
  | Fin targetKm =>
  if leb targetKm 0 then ret (ErrorJson 400 "Invalid distance_km") else
  match fetched with
  | None => ret (ErrorJson 500 "Server error")
  | Some acts =>
  let pts := normalize acts in
  if Nat.ltb (length pts) MIN_POINTS
  then ret (ErrorJson 400 "Need at least 4 valid runs") else
  pts <- pauseFilter pts ;;
  if Nat.ltb (length pts) MIN_POINTS
  then ret (ErrorJson 400 "Not enough clean runs after filtering") else
  pts <- outlierFilter pts ;;
  if Nat.ltb (length pts) MIN_POINTS
  then ret (ErrorJson 400
              "Too many outliers removed; collect a few more steady runs") else
  fit <- fitPowerLaw now pts ;;
  match fit with
  | None => ret (ErrorJson 500 "Model fit failed")
  | Some fit => respond targetKm fit (length pts)
  end end end end.

Close Scope string_scope.

(** ** Resolving the user (source lines 225-233) *)

(** A value as [getUserId] tests it: a string, or anything else. *)
Inductive jsvalue : Type :=
| JString (s : string)
| JOther.

(** What [getUserId] reads of the request:
    - [req_user_id]: [None] when [req.user] is falsy, otherwise [req.user.id];
    - [req_session_userId]: [None] when [req.session] is falsy, otherwise
      [req.session.userId];
    - [req_header]: [req.headers["x-user-id"]]. *)
Record Identity : Type := mkIdentity {
  req_user_id : option jsvalue;
  req_session_userId : option jsvalue;
  req_header : jsvalue
}.

(** [typeof v === "string" && v] when it is truthy: the empty string is
    falsy. *)
Definition truthyString (v : jsvalue) : option string :=
  match v with
  | JString s => if String.eqb s "" then None else Some s
  | JOther => None
  end.

(** [o && typeof o.f === "string" && o.f] when it is truthy, [o.f] being
    given when [o] is truthy. *)
Definition truthyField (f : option jsvalue) : option string :=
  match f with
  | Some v => truthyString v
  | None => None
  end.

(** [x || y] on values that are a truthy string or falsy. *)
Definition orElse (x y : option string) : option string :=
  match x with
  | Some _ => x
  | None => y
  end.

Definition getUserId (req : Identity) : option string :=
  orElse (truthyField (req_user_id req))
    (orElse (truthyField (req_session_userId req))
       (orElse (truthyString (req_header req)) None)).

(** ** Keeping the Strava token fresh (source lines 86-105 and 235-252) *)

(** A row of [prisma.user], with the columns that the token code reads and
    writes, and the table, keyed by [id]. *)
Record User : Type := mkUser {
  user_id : string;
  accessToken : string;
  refreshToken : string;
  expiresAt : Z
}.

(** The answer of Strava to a refresh. *)
Record TokenData : Type := mkTokenData {
  access_token : string;
  refresh_token : option string;
  expires_at : Z
}.

(** A call returns or throws. *)
Inductive Outcome (A : Type) : Type :=
| Returned (a : A)
| Thrown (message : string).

Arguments Returned {A} a.
Arguments Thrown {A} message.

(** The state that the token code acts on: the table of users, and the
    refresh tokens posted to Strava so far, in order. *)
Record World : Type := mkWorld {
  users : list User;
  refreshCalls : list string
}.

(** [prisma.user.findUnique({ where: { id } })]. *)
Definition findUnique (table : list User) (id : string) : option User :=
  find (fun u => String.eqb (user_id u) id) table.

(** [prisma.user.update({ where: { id }, data })]: [change] writes the
    columns of [data] into the row; the call returns the row as updated, and
    throws when no row has that [id]. *)
Definition update (table : list User) (id : string) (change : User -> User)
  : Outcome User * list User :=
  match findUnique table id with
  | None => (Thrown "Record to update not found.", table)
  | Some row =>
      (Returned (change row),
       map (fun u => if String.eqb (user_id u) id then change u else u) table)
  end.

(** The [data] of the update that follows a refresh. *)
Definition refreshedColumns (user : User) (data : TokenData) (row : User)
  : User :=
  {| user_id := user_id row;
     accessToken := access_token data;
     refreshToken := match refresh_token data with
                     | Some token => token
                     | None => refreshToken user
                     end;
     expiresAt := expires_at data |}.

(** [refreshAccessToken(token)] is a network call: [strava] is the answer of
    Strava to the refresh token posted, and the state records the post. *)
Definition refreshAccessToken
  (strava : string -> Outcome TokenData) (token : string) (w : World)
  : Outcome TokenData * World :=
  (strava token,
   {| users := users w; refreshCalls := refreshCalls w ++ [token] |}).

(** [ensureFreshToken(user)], at the reading [nowMs] of [Date.now()]. *)
Definition ensureFreshToken
  (strava : string -> Outcome TokenData) (nowMs : Z) (user : User) (w : World)
  : Outcome string * World :=
  let now := (nowMs / 1000)%Z in
  if (60 <? expiresAt user - now)%Z then (Returned (accessToken user), w)
  else
    match refreshAccessToken strava (refreshToken user) w with
    | (Thrown message, w) => (Thrown message, w)
    | (Returned data, w) =>
        match update (users w) (user_id user) (refreshedColumns user data) with
        | (Thrown message, table) =>
            (Thrown message,
             {| users := table; refreshCalls := refreshCalls w |})
        | (Returned _, table) =>
            (Returned (access_token data),
             {| users := table; refreshCalls := refreshCalls w |})
        end
    end.

Definition ensureFreshTokenForUserId
  (strava : string -> Outcome TokenData) (nowMs : Z) (userId : string)
  (w : World)
  : Outcome string * World :=
  match findUnique (users w) userId with
  | None => (Thrown "User not found", w)
  | Some user =>
      let now := (nowMs / 1000)%Z in
      if (60 <? expiresAt user - now)%Z then (Returned (accessToken user), w)
      else
        match refreshAccessToken strava (refreshToken user) w with
        | (Thrown message, w) => (Thrown message, w)
        | (Returned data, w) =>
            match update (users w) (user_id user)
                    (refreshedColumns user data) with
            | (Thrown message, table) =>
                (Thrown message,
                 {| users := table; refreshCalls := refreshCalls w |})
            | (Returned updated, table) =>
                (Returned (accessToken updated),
                 {| users := table; refreshCalls := refreshCalls w |})
            end
        end
  end.

(** ** The weather proxy (source lines 138-191) *)

Open Scope string_scope.

(** [n || 0], [n / c] for a positive literal [c], [Math.min] and [Math.max]
    on the values of [Number(...)]. *)
Definition orZero (n : num) : num :=
  match n with
  | NaN => Fin 0
  | Fin r => if eqb r 0 then Fin 0 else Fin r
  | PInf => PInf
  | NInf => NInf
  end.

Definition divideBy (n : num) (c : R) : num :=
  match n with
  | Fin r => Fin (r / c)
  | PInf => PInf
  | NInf => NInf
  | NaN => NaN
  end.

Definition Math_min (x y : num) : num :=
  match x, y with
  | NaN, _ | _, NaN => NaN
  | NInf, _ | _, NInf => NInf
  | PInf, _ => y
  | _, PInf => x
  | Fin a, Fin b => Fin (Rmin a b)
  end.

Definition Math_max (x y : num) : num :=
  match x, y with
  | NaN, _ | _, NaN => NaN
  | PInf, _ | _, PInf => PInf
  | NInf, _ => y
  | _, NInf => x
  | Fin a, Fin b => Fin (Rmax a b)
  end.

(** [!n]: a number is falsy when it is zero or NaN. *)
Definition falsy (n : num) : bool :=
  match n with
  | NaN => true
  | Fin r => eqb r 0
  | PInf | NInf => false
  end.

(** What the route reads of an hour [h] of the upstream forecast: [Number]
    of each field, [h_uv] being [None] when [h.uv] is null or undefined. *)
Record RawHour : Type := mkRawHour {
  h_time_epoch : num;
  h_temp_c : num;
  h_humidity : num;
  h_wind_kph : num;
  h_chance_of_rain : num;
  h_uv : option num
}.

Record Hour : Type := mkHour {
  ts : num;
  temp_c : num;
  humidity : num;
  wind_kph : num;
  pop : num;
  uv : num;
  aqi : option num
}.

(** The mapping of an hour (source lines 157-165). *)
Definition toHour (h : RawHour) : Hour :=
  {| ts := h_time_epoch h;
     temp_c := h_temp_c h;
     humidity := h_humidity h;
     wind_kph := h_wind_kph h;
     pop := Math_max (Fin 0)
              (Math_min (Fin 1) (divideBy (orZero (h_chance_of_rain h)) 100));
     uv := match h_uv h with Some n => n | None => Fin 0 end;
     aqi := None |}.

(** The answer of the weather service: the fetch threw, the status was not
    ok, or the hours of the first forecast day came back (none when the
    path to them is missing). *)
Inductive Upstream : Type :=
| FetchThrew (message : string)
| NotOk (status : nat)
| Forecast (hours : list RawHour).

(** The response of the route; of the success payload only [hours] is
    modelled, [current] and [location] being copies of upstream fields. *)
Inductive WeatherResponse : Type :=
| WeatherError (status : nat) (error : string)
| WeatherJson (hours : list Hour).

(** [lat] and [lon] are [Number(req.query.lat)] and [Number(req.query.lon)],
    [key] is [process.env.WEATHER_API_KEY]. *)
Definition weather (lat lon : num) (key : option string) (upstream : Upstream)
  : WeatherResponse :=
  if falsy lat || falsy lon then WeatherError 400 "lat & lon required" else
  match key with
  | None => WeatherError 500 "WEATHER_API_KEY missing"
  | Some k =>
      if String.eqb k "" then WeatherError 500 "WEATHER_API_KEY missing" else
      match upstream with
      | FetchThrew message => WeatherError 500 message
      | NotOk status =>
          WeatherError status ("WeatherAPI " ++ toString (Z.of_nat status))
      | Forecast hoursRaw => WeatherJson (map toHour hoursRaw)
      end
  end.

(** ** The run planner of the app ([app/(tabs)/run-planner.tsx]) *)

(** A number as JSON carries it: NaN and the infinities arrive as null. *)
Definition toJson (n : num) : option R :=
  match n with
  | Fin r => Some r
  | _ => None
  end.

(** A value of the parsed JSON in arithmetic: null counts as zero, and so it
    does in [v || 0]. *)
Definition numberOf (v : option R) : R :=
  match v with
  | Some r => r
  | None => 0%R
  end.

(** An hour as the planner receives it. *)
Record PlannerHour : Type := mkPlannerHour {
  p_temp_c : option R;
  p_humidity : option R;
  p_wind_kph : option R;
  p_pop : option R;
  p_uv : option R;
  p_aqi : option R
}.

Definition received (h : Hour) : PlannerHour :=
  {| p_temp_c := toJson (temp_c h);
     p_humidity := toJson (humidity h);
     p_wind_kph := toJson (wind_kph h);
     p_pop := toJson (pop h);
     p_uv := toJson (uv h);
     p_aqi := match aqi h with Some n => toJson n | None => None end |}.

(** [scoreHour] (source lines 103-120). *)
Definition penaltyOf (h : PlannerHour) : R :=
  let tempPenalty := Rmin 1 (Rabs (numberOf (p_temp_c h) - 11) / 15) in
  let humidityPenalty := Rmax 0 ((numberOf (p_humidity h) - 50) / 50) in
  let windPenalty := Rmin 1 (numberOf (p_wind_kph h) / 30) in
  let rainPenalty := Rmin 1 (numberOf (p_pop h)) in
  let uvPenalty := Rmin 1 (numberOf (p_uv h) / 8) in
  let aqiPenalty :=
    match p_aqi h with
    | Some a => Rmin 1 (a / 150)
    | None => 0.2
    end in
  (0.35 * tempPenalty + 0.15 * humidityPenalty + 0.15 * windPenalty
   + 0.2 * aqiPenalty + 0.1 * rainPenalty + 0.05 * uvPenalty)%R.

Definition scoreHour (h : PlannerHour) : Z :=
  round (100 * (1 - Rmax 0 (Rmin 1 (penaltyOf h)))).

(** [[...ws].sort((a, b) => b.score - a.score)]: the sort is stable. *)
Fixpoint insertByScore (x : PlannerHour * Z) (l : list (PlannerHour * Z))
  : list (PlannerHour * Z) :=
  match l with
  | [] => [x]
  | y :: l' =>
      if (snd x <? snd y)%Z then y :: insertByScore x l' else x :: l
  end.

Definition sortByScore (l : list (PlannerHour * Z)) : list (PlannerHour * Z) :=
  fold_right insertByScore [] l.

Definition withScores (hours : list PlannerHour) : list (PlannerHour * Z) :=
  map (fun h => (h, scoreHour h)) hours.

(** The three best windows: [sort(...).slice(0, 3)]. *)
Definition best (hours : list PlannerHour) : list (PlannerHour * Z) :=
  firstn 3 (sortByScore (withScores hours)).

(** ** The predictor screen of the app ([app/(tabs)/performance.tsx]) *)

Definition kmToMi (km : R) : R := (km * 0.621371)%R.
Definition miToKm (mi : R) : R := (mi / 0.621371)%R.

Inductive UnitSystem : Type := Km | Mi.

(** [distKm], [v] being [parseFloat(distance)]. *)
Definition distKm (unit : UnitSystem) (v : num) : num :=
  match v with
  | NaN => Fin 0
  | NInf => Fin 0
  | PInf => PInf
  | Fin r =>
      if leb r 0 then Fin 0
      else match unit with
           | Km => Fin r
           | Mi => Fin (miToKm r)
           end
  end.

(** What the server reads of [distance_km=${x.toFixed(3)}], the text being
    put into the URL as it is.  Below 1e21, [toFixed(3)] writes the nearest
    multiple of one thousandth, a tie going away from zero, and [Number]
    reads it back.  From 1e21 on it writes the exponent notation, as in
    [1e+21]: the query parser of the server takes the [+] for a space, and
    [Number] of the text with a space in it is NaN.  NaN and the infinities
    are written by name and read back. *)
Definition toFixed3 (x : num) : num :=
  match x with
  | Fin r =>
      if leb 1e21 (Rabs r) then NaN
      else if ltb r 0 then Fin (- (IZR (round (- r * 1000)) / 1000))
      else Fin (IZR (round (r * 1000)) / 1000)
  | _ => x
  end.

(** The request that [predict] sends: it throws before sending when there
    is no stored user or when [distKm] is falsy. *)
Definition predictRequest (userId : option string) (d : num)
  : Outcome (Identity * option num) :=
  match userId with
  | None => Thrown "Please connect Strava first."
  | Some u =>
      if String.eqb u "" then Thrown "Please connect Strava first." else
      if falsy d then Thrown "Enter a valid distance." else
      Returned ({| req_user_id := None;
                   req_session_userId := None;
                   req_header := JString u |},
                Some (toFixed3 d))
  end.

Close Scope string_scope.

(** ** The numeric core in binary64 (source lines 254-307 and 347-399)

    The definitions above compute with real numbers.  This module embeds the
    same lines over binary64, the numbers that the code computes with:
    [float] is Rocq's primitive binary64 type, [+], [-], [*], [/] and the
    square root round to nearest, ties to even, as JavaScript's do, and the
    comparisons are those of IEEE 754 (false on NaN).  ECMAScript leaves the
    accuracy of [Math.log], [Math.exp] and [Math.pow] to the implementation:
    they are the three functions of a [Runtime], which every definition that
    calls them takes as a parameter. *)
Module Binary64.

Local Open Scope string_scope.
Local Open Scope float_scope.

Record Runtime : Type := mkRuntime {
  Math_log : float -> float;
  Math_exp : float -> float;
  Math_pow : float -> float -> float
}.

(** [isFinite(x)], and [Math.max(x, y)]: NaN when an argument is NaN, and
    of the two zeros the positive one. *)
Definition isFinite (x : float) : bool := is_finite x.

Definition Math_max (x y : float) : float :=
  if is_nan x || is_nan y then nan
  else if x <? y then y
  else if y <? x then x
  else if get_sign x then y else x.

(** The binary64 number nearest to an integer below 2^63 in magnitude. *)
Definition ofZ (z : Z) : float :=
  if (z <? 0)%Z then - of_uint63 (Uint63.of_Z (- z))
  else of_uint63 (Uint63.of_Z z).

Definition HALF_LIFE_DAYS : float := 60.
Definition MIN_DISTANCE_M : float := 800.
Definition MIN_POINTS : nat := 4%nat.
Definition MIN_MOVE_ELAPSED_RATIO : float := 0.8.

(** [now.getTime() - start.getTime()].  The time value of a valid [Date] is
    an integer of at most 8.64e15 in magnitude, below 2^53: both time values
    are binary64 numbers, and their binary64 difference is the rounding of
    their integer difference. *)
Definition elapsedMs (start now : Date) : float := ofZ (now - start).

Definition recencyWeight (rt : Runtime) (start now : Date) : float :=
  let ms := Math_max 0 (elapsedMs start now) in
  let days := ms / 86400000 in
  Math_pow rt 0.5 (days / HALF_LIFE_DAYS).

(** [[...nums].sort((a, b) => a - b)]: [sort] takes a comparator that
    returns NaN for one that returns zero. *)
Definition compareFn (a b : float) : float :=
  let v := a - b in if is_nan v then 0 else v.

Fixpoint insert (a : float) (l : list float) : list float :=
  match l with
  | [] => [a]
  | b :: l' => if compareFn a b <=? 0 then a :: l else b :: insert a l'
  end.

Fixpoint sort (l : list float) : list float :=
  match l with
  | [] => []
  | a :: l' => insert a (sort l')
  end.

Definition median (nums : list float) : float :=
  let n := length nums in
  if Nat.eqb n 0 then 0 else
  let arr := sort nums in
  let mid := Nat.div n 2 in
  if Nat.eqb (Nat.modulo n 2) 1 then nth mid arr nan
  else (nth (mid - 1) arr nan + nth mid arr nan) / 2.

Record Point : Type := mkPoint {
  distance : float;
  movingTime : float;
  elapsedTime : option float;
  startDate : Date
}.

Record Fit : Type := mkFit {
  logA : float;
  b : float;
  rmseLog : float
}.

Record Sums : Type := mkSums {
  sw : float;
  swx : float;
  swy : float;
  swxx : float;
  swxy : float
}.

Definition accumulate (s : Sums) (wxy : float * (float * float)) : Sums :=
  let '(wi, (xi, yi)) := wxy in
  {| sw := sw s + wi;
     swx := swx s + wi * xi;
     swy := swy s + wi * yi;
     swxx := swxx s + wi * xi * xi;
     swxy := swxy s + wi * xi * yi |}.

Definition sums (w x y : list float) : Sums :=
  fold_left accumulate (combine w (combine x y)) (mkSums 0 0 0 0 0).

Definition residuals (beta0 beta1 : float) (w x y : list float) : float :=
  fold_left
    (fun sse wxy =>
       let '(wi, (xi, yi)) := wxy in
       let yhat := beta0 + beta1 * xi in
       let r := yi - yhat in
       sse + wi * r * r)
    (combine w (combine x y)) 0.

(** The sums of the first loop on the points, and [det]. *)
Definition fitSums (rt : Runtime) (now : Date) (points : list Point) : Sums :=
  sums (map (fun p => recencyWeight rt (startDate p) now) points)
       (map (fun p => Math_log rt (distance p)) points)
       (map (fun p => Math_log rt (movingTime p)) points).

Definition determinant (s : Sums) : float := sw s * swxx s - swx s * swx s.

Definition fitPowerLaw (rt : Runtime) (now : Date) (points : list Point)
  : option Fit :=
  if Nat.ltb (length points) 2 then None else
  let x := map (fun p => Math_log rt (distance p)) points in
  let y := map (fun p => Math_log rt (movingTime p)) points in
  let w := map (fun p => recencyWeight rt (startDate p) now) points in
  let s := sums w x y in
  let det := determinant s in
  if negb (isFinite det) || (abs det <? 1e-12) || (sw s =? 0) then None else
  let beta0 := (swy s * swxx s - swx s * swxy s) / det in
  let beta1 := (sw s * swxy s - swx s * swy s) / det in
  let sse := residuals beta0 beta1 w x y in
  Some {| logA := beta0; b := beta1; rmseLog := PrimFloat.sqrt (sse / sw s) |}.

Definition predictSeconds (rt : Runtime) (logA b distanceM : float) : float :=
  Math_exp rt logA * Math_pow rt distanceM b.

(** What [mapStravaAct] reads of an activity object, as above, with the
    results of [Number(...)] as binary64 numbers. *)
Record Activity : Type := mkActivity {
  a_type : option string;
  a_distance : float;
  a_moving_time : float;
  a_elapsed_time : option float;
  a_start_date : option Date
}.

Definition mapStravaAct (a : option Activity) : option Point :=
  match a with
  | None => None
  | Some a =>
      if negb (isRun (a_type a)) then None else
      if negb (isFinite (a_distance a)) || negb (isFinite (a_moving_time a))
      then None else
      match a_start_date a with
      | None => None
      | Some startDate =>
          Some {| distance := a_distance a;
                  movingTime := a_moving_time a;
                  elapsedTime :=
                    match a_elapsed_time a with
                    | Some elapsedMaybe =>
                        if isFinite elapsedMaybe then Some elapsedMaybe
                        else None
                    | None => None
                    end;
                  startDate := startDate |}
      end
  end.

Definition normalize (acts : list (option Activity)) : list Point :=
  filter (fun p => (MIN_DISTANCE_M <? distance p) && (0 <? movingTime p))
         (mapNotNull mapStravaAct acts).

Definition pauseKeep (p : Point) : bool :=
  match elapsedTime p with
  | None => true
  | Some elapsed =>
      if elapsed <=? 0 then true
      else MIN_MOVE_ELAPSED_RATIO <=? movingTime p / elapsed
  end.

Definition pauseFilter (pts : list Point) : list Point := filter pauseKeep pts.

Definition outlierFilter (pts : list Point) : list Point :=
  let paces := map (fun p => movingTime p / distance p) pts in
  let med := median paces in
  let low := 0.5 * med in
  let high := 2.0 * med in
  filterIndex
    (fun i => let pace := nth i paces nan in (low <=? pace) && (pace <=? high))
    0 pts.

(** The numbers of a prediction before they are formatted: [predSec],
    [lowSec] and [highSec] of source lines 396-398. *)
Record Prediction : Type := mkPrediction {
  distance_km : float;
  predSec : float;
  lowSec : float;
  highSec : float;
  model : Fit;
  used_points : nat
}.

Inductive Response : Type :=
| ErrorJson (status : nat) (error : string)
| PredictionJson (p : Prediction).

Record Request : Type := mkRequest {
  userId : option string;
  query_distance_km : option float
}.

Definition respond (rt : Runtime) (targetKm : float) (fit : Fit) (used : nat)
  : Response :=
  let targetM := targetKm * 1000 in
  let predSec := predictSeconds rt (logA fit) (b fit) targetM in
  let lowSec := Math_exp rt (Math_log rt predSec - rmseLog fit) in
  let highSec := Math_exp rt (Math_log rt predSec + rmseLog fit) in
  PredictionJson
    {| distance_km := targetKm;
       predSec := predSec;
       lowSec := lowSec;
       highSec := highSec;
       model := fit;
       used_points := used |}.

Definition predictPerformance
  (rt : Runtime) (req : Request) (fetched : option (list (option Activity)))
  (now : Date) : Response :=
  match userId req with
  | None => ErrorJson 401 "Unauthorized"
  | Some _ =>
  let targetKm :=
    match query_distance_km req with Some n => n | None => 5.0 end in
  if negb (isFinite targetKm) || (targetKm <=? 0)
  then ErrorJson 400 "Invalid distance_km" else
  match fetched with
  | None => ErrorJson 500 "Server error"
  | Some acts =>
  let pts := normalize acts in
  if Nat.ltb (length pts) MIN_POINTS
  then ErrorJson 400 "Need at least 4 valid runs" else
  let pts := pauseFilter pts in
  if Nat.ltb (length pts) MIN_POINTS
  then ErrorJson 400 "Not enough clean runs after filtering" else
  let pts := outlierFilter pts in
  if Nat.ltb (length pts) MIN_POINTS
  then ErrorJson 400
         "Too many outliers removed; collect a few more steady runs" else
  match fitPowerLaw rt now pts with
  | None => ErrorJson 500 "Model fit failed"
  | Some fit => respond rt targetKm fit (length pts)
  end end end.

End Binary64.

(** * Vocabulary of the statements *)

(** The definitions of this part are not in the source: they name what the
    properties speak about, and the concrete inputs on which the handler is
    run. *)

(** ** Quantities of the pipeline *)

(** [sorted l]: the numbers of [l] ascend. *)
Inductive sorted : list R -> Prop :=
| sorted_nil : sorted []
| sorted_one (a : R) : sorted [a]
| sorted_cons (a x : R) (l : list R) :
    a <= x -> sorted (x :: l) -> sorted (a :: x :: l).

(** The pace of a point, the median pace of a list of points, and the test
    of the outlier filter against a median [med]. *)
Definition pace (p : Point) : R := movingTime p / distance p.

Definition medianPace (pts : list Point) : R := median (map pace pts).

Definition inBand (med : R) (p : Point) : bool :=
  geb (pace p) (0.5 * med) && leb (pace p) (2.0 * med).

(** The same point with another start date, hence another recency weight. *)
Definition redate (f : Point -> Date) (p : Point) : Point :=
  {| distance := distance p; movingTime := movingTime p;
     elapsedTime := elapsedTime p; startDate := f p |}.

(** The sums and the determinant that [fitPowerLaw] computes for the points
    it is given. *)
Definition fitSums (now : Date) (points : list Point) : Sums :=
  sums (map (fun p => recencyWeight (startDate p) now) points)
       (map (fun p => ln (distance p)) points)
       (map (fun p => ln (movingTime p)) points).

Definition fitDeterminant (now : Date) (points : list Point) : R :=
  determinant (fitSums now points).

(** The messages of the three minimum-volume gates. *)
Definition tooFewValid : string := "Need at least 4 valid runs".
Definition tooFewClean : string := "Not enough clean runs after filtering".
Definition tooFewSteady : string :=
  "Too many outliers removed; collect a few more steady runs".

(** The handler past the fetch, as a cascade over the three filtered lists. *)
Definition pipeline (targetKm : R) (acts : list (option Activity)) (now : Date)
  : Response :=
  let pts0 := normalize acts in
  let pts1 := value (pauseFilter pts0) in
  let pts2 := value (outlierFilter pts1) in
  if Nat.ltb (length pts0) MIN_POINTS then ErrorJson 400 tooFewValid
  else if Nat.ltb (length pts1) MIN_POINTS then ErrorJson 400 tooFewClean
  else if Nat.ltb (length pts2) MIN_POINTS then ErrorJson 400 tooFewSteady
  else match value (fitPowerLaw now pts2) with
       | None => ErrorJson 500 "Model fit failed"
       | Some fit => value (respond targetKm fit (length pts2))
       end.

(** ** Valid records *)

(** The records that the spec says are kept: a run, with a finite and
    strictly positive distance and moving time, and a start time that parses. *)
Definition validPerSpec (a : Activity) : Prop :=
  isRun (a_type a) = true
  /\ (exists d, a_distance a = Fin d /\ 0 < d)
  /\ (exists t, a_moving_time a = Fin t /\ 0 < t)
  /\ (exists start, a_start_date a = Some start).

(** The records that the code keeps: the distance has to exceed
    [MIN_DISTANCE_M]. *)
Definition validRun (a : Activity) : Prop :=
  isRun (a_type a) = true
  /\ (exists d, a_distance a = Fin d /\ MIN_DISTANCE_M < d)
  /\ (exists t, a_moving_time a = Fin t /\ 0 < t)
  /\ (exists start, a_start_date a = Some start).

(** The point that [mapStravaAct] makes of a record, when it makes one. *)
Definition pointOf (a : Activity) (p : Point) : Prop :=
  a_distance a = Fin (distance p)
  /\ a_moving_time a = Fin (movingTime p)
  /\ a_start_date a = Some (startDate p)
  /\ elapsedTime p = match a_elapsed_time a with
                     | Some (Fin e) => Some e
                     | _ => None
                     end.

(** ** Concrete requests and activities *)

(** The request of user [u] for a target of [km] kilometres. *)
Definition requestFor (u : string) (km : R) : Request :=
  {| userId := Some u; query_distance_km := Some (Fin km) |}.

(** A Strava run of [d] metres in [t] seconds of moving time. *)
Definition runOf (d t : R) (e : option R) (start : Date) : Activity :=
  {| a_type := Some "Run"%string;
     a_distance := Fin d;
     a_moving_time := Fin t;
     a_elapsed_time := option_map Fin e;
     a_start_date := Some start |}.

(** [n] start dates, [step] milliseconds apart, from [start] on. *)
Definition evenlySpaced (start step : Date) (n : nat) : list Date :=
  map (fun k => (start + step * Z.of_nat k)%Z) (seq 0 n).

(** Four inputs, one for each way through the gates: three valid runs; four
    valid runs of which one paused half of the time; four valid runs of which
    one is far slower than the others; four steady runs. *)
Definition threeRuns : list (option Activity) :=
  [Some (runOf 5000 1500 None 0); Some (runOf 5000 1500 None 86400000);
   Some (runOf 5000 1500 None 172800000)].

Definition pausedRuns : list (option Activity) :=
  [Some (runOf 5000 1500 None 0); Some (runOf 5000 1500 (Some 3000) 86400000);
   Some (runOf 5000 1500 None 172800000);
   Some (runOf 5000 1500 None 259200000)].

Definition unevenRuns : list (option Activity) :=
  [Some (runOf 5000 1500 None 0); Some (runOf 5000 4000 None 86400000);
   Some (runOf 5000 1500 None 172800000);
   Some (runOf 5000 1500 None 259200000)].

Definition fourRuns : list (option Activity) :=
  [Some (runOf 5000 1500 None 0); Some (runOf 5000 1500 None 86400000);
   Some (runOf 5000 1500 None 172800000);
   Some (runOf 5000 1500 None 259200000)].

(** A reading of the clock: 14 November 2023, 22:13:20 UTC. *)
Definition today : Date := 1700000000000.

(** ** Dates moved by a constant *)

(** The same point and the same activity [delta] milliseconds later. *)
Definition shiftPoint (delta : Z) (p : Point) : Point :=
  redate (fun p => (startDate p + delta)%Z) p.

Definition shiftActivity (delta : Z) (a : Activity) : Activity :=
  {| a_type := a_type a;
     a_distance := a_distance a;
     a_moving_time := a_moving_time a;
     a_elapsed_time := a_elapsed_time a;
     a_start_date := option_map (fun start => (start + delta)%Z)
                                (a_start_date a) |}.

(** ** Reading a clock time back *)

(** The decimal number that a string writes, the fields of a string between
    its colons, and the seconds that a text [m:ss] or [h:mm:ss] stands for. *)
Definition parseZ (s : string) : option Z :=
  option_map Z.of_int (NilZero.int_of_string s).

Fixpoint fields (s : string) : list string :=
  match s with
  | EmptyString => [EmptyString]
  | String c s' =>
      if Ascii.eqb c ":" then EmptyString :: fields s'
      else match fields s' with
           | f :: fs => String c f :: fs
           | [] => [String c EmptyString]
           end
  end.

Definition parseClock (s : string) : option Z :=
  match map parseZ (fields s) with
  | [Some m; Some sec] => Some (60 * m + sec)%Z
  | [Some h; Some m; Some sec] => Some (3600 * h + 60 * m + sec)%Z
  | _ => None
  end.

Fixpoint noColon (s : string) : bool :=
  match s with
  | EmptyString => true
  | String c s' => negb (Ascii.eqb c ":") && noColon s'
  end.

(** ** Requests and users *)

(** The request that the handler sees for the identity [who] and the query
    parameter [q]. *)
Definition requestOf (who : Identity) (q : option num) : Request :=
  {| userId := getUserId who; query_distance_km := q |}.

(** [nonEmpty v s]: the value [v] is the string [s], and [s] is not empty. *)
Definition nonEmpty (v : option jsvalue) (s : string) : Prop :=
  v = Some (JString s) /\ s <> EmptyString.

(** ** Scores in decreasing order *)

Inductive descending : list (PlannerHour * Z) -> Prop :=
| descending_nil : descending []
| descending_one (x : PlannerHour * Z) : descending [x]
| descending_cons (x y : PlannerHour * Z) (l : list (PlannerHour * Z)) :
    (snd y <= snd x)%Z -> descending (y :: l) -> descending (x :: y :: l).

(** ** The runtime at the arguments of the examples *)

(** The nearest binary64 numbers to the logarithm, the exponential and the
    power at the arguments that the examples below reach. *)
Definition logTable : list (float * float) :=
  [(1000, 0x1.ba18a998fffap+2);
   (1480, 0x1.d32fe14b69ce5p+2);
   (1500, 0x1.d40bcd85bf925p+2);
   (1530, 0x1.d5503fc2e6bcdp+2);
   (1600, 0x1.d82d33b32720dp+2);
   (1650, 0x1.da255d640ea4p+2);
   (1700, 0x1.dc0e79cb294d2p+2);
   (2000, 0x1.e6752f96f46dep+2);
   (3000, 0x1.003429c1da031p+3);
   (5000, 0x1.108cd8bc5b177p+3);
   (5001, 0x1.108e7c1fcd5f9p+3);
   (5002, 0x1.10901f6dc84b9p+3);
   (5003, 0x1.1091c2a64e0dep+3);
   (5004, 0x1.109365c960d8ap+3);
   (10000, 0x1.26bb1bbb55516p+3);
   (0x1.749ea7d470c6ep+11, 8)]%float.

Definition expTable : list (float * float) :=
  [(0, 1);
   (8, 0x1.749ea7d470c6ep+11);
   (0x1.ff97ac7c4bf9ep+2, 0x1.72412dcb6f496p+11);
   (0x1.003429c1da031p+3, 0x1.76ffffffffffbp+11);
   (0x1.108cd8bc5b177p+3, 0x1.3880000000004p+12);
   (-0x1.75ceb44bf5496p+10, 0)]%float.

Definition powTable : list (float * float * float) :=
  [(0.5, 0, 1);
   (0.5, 0x1.ddddddddddddep-4, 0x1.d839d4000bae4p-1);
   (0.5, 0x1.ddddddddddddep-3, 0x1.b38aa5682153fp-1);
   (0.5, 0x1.6666666666666p-2, 0x1.91b501c2db3dfp-1);
   (0.5, 0x1.ddddddddddddep-2, 0x1.72803c9b50335p-1);
   (0.5, 0x1.54b20de7faf17p+10, 0);
   (0.5, 0x1.ece0fcd6e9e06p+10, 0);
   (5000, -0, 1);
   (5000, 1, 5000);
   (5000, 0x1.60d2ae4ef3f7dp+7, infinity)]%float.

(** A runtime whose functions take the values of the tables and return NaN
    on NaN. *)
Definition tabulated (rt : Binary64.Runtime) : Prop :=
  Forall (fun kv => Binary64.Math_log rt (fst kv) = snd kv) logTable
  /\ Forall (fun kv => Binary64.Math_exp rt (fst kv) = snd kv) expTable
  /\ Forall (fun kv =>
               Binary64.Math_pow rt (fst (fst kv)) (snd (fst kv)) = snd kv)
            powTable
  /\ Binary64.Math_log rt nan = nan
  /\ Binary64.Math_exp rt nan = nan.

(** A runtime that raises one half to a whole number [k] of at most 1100
    exactly: [Z.ldexp 1 (- k)] is 2^-k rounded, which is 2^-k down to
    2^-1074, the smallest positive number, and 0 from [k] = 1075 on. *)
Definition halving (rt : Binary64.Runtime) : Prop :=
  forall k : Z, (0 <= k <= 1100)%Z ->
    Binary64.Math_pow rt 0.5 (Binary64.ofZ k) = Z.ldexp 1 (- k).

Fixpoint lookup {K : Type} (same : K -> K -> bool) (table : list (K * float))
  (key : K) : float :=
  match table with
  | [] => nan
  | (k, v) :: table' => if same k key then v else lookup same table' key
  end.

(** The whole number that a binary64 number is, if it is one and is not
    negative. *)
Definition wholeNumber (y : float) : option Z :=
  match Prim2SF y with
  | S754_zero _ => Some 0%Z
  | S754_finite false m e =>
      if (0 <=? e)%Z then Some (Z.pos m * 2 ^ e)%Z
      else if (Z.pos m mod 2 ^ (- e) =? 0)%Z then Some (Z.pos m / 2 ^ (- e))%Z
      else None
  | _ => None
  end.

Definition halfLives : list Z := map Z.of_nat (seq 0 1101).

(** The runtime of the tables, which also raises one half to a whole number
    of at most 1100 exactly; NaN elsewhere. *)
Definition reference : Binary64.Runtime :=
  {| Binary64.Math_log := lookup PrimFloat.eqb logTable;
     Binary64.Math_exp := lookup PrimFloat.eqb expTable;
     Binary64.Math_pow := fun x y =>
       let table :=
         lookup (fun k k' => PrimFloat.eqb (fst k) (fst k')
                             && PrimFloat.eqb (snd k) (snd k'))
                powTable (x, y) in
       if PrimFloat.eqb x 0.5 then
         match wholeNumber y with
         | Some k => if (k <=? 1100)%Z then Z.ldexp 1 (- k) else table
         | None => table
         end
       else table |}.

(** ** Requests and runs in binary64 *)

Definition floatRequest (u : string) (km : float) : Binary64.Request :=
  {| Binary64.userId := Some u; Binary64.query_distance_km := Some km |}.

(** A Strava run of [d] metres in [t] seconds of moving time, and the point
    it normalises to. *)
Definition floatRun (d t : float) (start : Date) : option Binary64.Activity :=
  Some {| Binary64.a_type := Some "Run"%string;
          Binary64.a_distance := d;
          Binary64.a_moving_time := t;
          Binary64.a_elapsed_time := None;
          Binary64.a_start_date := Some start |}.

Definition floatPoint (d t : float) (start : Date) : Binary64.Point :=
  {| Binary64.distance := d; Binary64.movingTime := t;
     Binary64.elapsedTime := None; Binary64.startDate := start |}.

(** The points that reach the fit. *)
Definition cleanPoints (acts : list (option Binary64.Activity))
  : list Binary64.Point :=
  Binary64.outlierFilter (Binary64.pauseFilter (Binary64.normalize acts)).

(** Five steady runs of 5000 m in 1500 s. *)
Definition steadyFloatRuns (starts : list Date)
  : list (option Binary64.Activity) :=
  map (floatRun 5000 1500) starts.

(** Six runs of 10000 m in 3000 s, all of them dated [today]. *)
Definition identicalRuns : list (option Binary64.Activity) :=
  repeat (floatRun 10000 3000 today) 6.

(** Four runs whose seconds are their metres, dated [today]. *)
Definition unitPaceRuns : list (option Binary64.Activity) :=
  [floatRun 1000 1000 today; floatRun 2000 2000 today;
   floatRun 3000 3000 today; floatRun 5000 5000 today].

(** Five runs of nearly one distance, dated [today]. *)
Definition nearbyRuns : list (option Binary64.Activity) :=
  [floatRun 5000 1480 today; floatRun 5001 1530 today;
   floatRun 5002 1600 today; floatRun 5003 1650 today;
   floatRun 5004 1700 today].

(** The exponent of one half in the weight of a run. *)
Definition ageExponent (start now : Date) : float :=
  (Binary64.Math_max 0 (Binary64.elapsedMs start now) / 86400000
   / Binary64.HALF_LIFE_DAYS)%float.

(** The sign of a binary64 number that is not NaN. *)
Definition signed (s : bool) (x : spec_float) : Prop :=
  match x with
  | S754_zero s' | S754_infinity s' | S754_finite s' _ _ => s' = s
  | S754_nan => False
  end.

(** * Properties *)

(** ** Comparisons *)

Lemma ltb_true (x y : R) : ltb x y = true <-> x < y.
Proof. unfold ltb. destruct (Rlt_dec x y); split; intros; congruence || tauto. Qed.

Lemma ltb_false (x y : R) : ltb x y = false <-> y <= x.
Proof.
  unfold ltb. destruct (Rlt_dec x y); split; intros; try congruence; lra.
Qed.

Lemma leb_true (x y : R) : leb x y = true <-> x <= y.
Proof. unfold leb. destruct (Rle_dec x y); split; intros; congruence || tauto. Qed.

Lemma leb_false (x y : R) : leb x y = false <-> y < x.
Proof.
  unfold leb. destruct (Rle_dec x y); split; intros; try congruence; lra.
Qed.

Lemma gtb_true (x y : R) : gtb x y = true <-> y < x.
Proof. apply ltb_true. Qed.

Lemma gtb_false (x y : R) : gtb x y = false <-> x <= y.
Proof. apply ltb_false. Qed.

Lemma geb_true (x y : R) : geb x y = true <-> y <= x.
Proof. apply leb_true. Qed.

Lemma geb_false (x y : R) : geb x y = false <-> x < y.
Proof. apply leb_false. Qed.

Lemma eqb_true (x y : R) : eqb x y = true <-> x = y.
Proof. unfold eqb. destruct (Req_dec_T x y); split; intros; congruence || tauto. Qed.

Lemma eqb_false (x y : R) : eqb x y = false <-> x <> y.
Proof. unfold eqb. destruct (Req_dec_T x y); split; intros; congruence || tauto. Qed.

(** Decide a comparison between two terms that [lra] can compare. *)
Ltac decide_cmp :=
  repeat match goal with
  | |- context [ltb ?x ?y] =>
      first [ replace (ltb x y) with true by (symmetry; apply ltb_true; lra)
            | replace (ltb x y) with false by (symmetry; apply ltb_false; lra) ]
  | |- context [leb ?x ?y] =>
      first [ replace (leb x y) with true by (symmetry; apply leb_true; lra)
            | replace (leb x y) with false by (symmetry; apply leb_false; lra) ]
  | |- context [gtb ?x ?y] =>
      first [ replace (gtb x y) with true by (symmetry; apply gtb_true; lra)
            | replace (gtb x y) with false by (symmetry; apply gtb_false; lra) ]
  | |- context [geb ?x ?y] =>
      first [ replace (geb x y) with true by (symmetry; apply geb_true; lra)
            | replace (geb x y) with false by (symmetry; apply geb_false; lra) ]
  | |- context [eqb ?x ?y] =>
      first [ replace (eqb x y) with true by (symmetry; apply eqb_true; lra)
            | replace (eqb x y) with false by (symmetry; apply eqb_false; lra) ]
  end.

(** Turn the comparisons among the hypotheses into inequalities. *)
Ltac reflect_cmp :=
  repeat match goal with
  | H : ltb _ _ = true |- _ => apply ltb_true in H
  | H : ltb _ _ = false |- _ => apply ltb_false in H
  | H : leb _ _ = true |- _ => apply leb_true in H
  | H : leb _ _ = false |- _ => apply leb_false in H
  | H : gtb _ _ = true |- _ => apply gtb_true in H
  | H : gtb _ _ = false |- _ => apply gtb_false in H
  | H : geb _ _ = true |- _ => apply geb_true in H
  | H : geb _ _ = false |- _ => apply geb_false in H
  | H : eqb _ _ = true |- _ => apply eqb_true in H
  | H : eqb _ _ = false |- _ => apply eqb_false in H
  end.

(** ** Values and divisors of composed computations *)

Lemma value_bind {A B : Type} (m : Div A) (k : A -> Div B) :
  value (bind m k) = value (k (value m)).
Proof. unfold value, bind. destruct m as [a ds]. simpl. now destruct (k a). Qed.

Lemma divisors_bind {A B : Type} (m : Div A) (k : A -> Div B) :
  divisors (bind m k) = divisors m ++ divisors (k (value m)).
Proof. unfold value, divisors, bind. destruct m as [a ds]. simpl. now destruct (k a). Qed.

Lemma value_mapD {A B : Type} (f : A -> Div B) (l : list A) :
  value (mapD f l) = map (fun a => value (f a)) l.
Proof.
  induction l as [| a l IH]; simpl; [reflexivity |].
  rewrite !value_bind. simpl. now rewrite IH.
Qed.

Lemma divisors_mapD {A B : Type} (f : A -> Div B) (l : list A) :
  divisors (mapD f l) = flat_map (fun a => divisors (f a)) l.
Proof.
  induction l as [| a l IH]; simpl; [reflexivity |].
  rewrite !divisors_bind. simpl. now rewrite IH, app_nil_r.
Qed.

Lemma value_filterD {A : Type} (f : A -> Div bool) (l : list A) :
  value (filterD f l) = filter (fun a => value (f a)) l.
Proof.
  induction l as [| a l IH]; simpl; [reflexivity |].
  rewrite !value_bind. simpl. now rewrite IH.
Qed.

Lemma divisors_filterD {A : Type} (f : A -> Div bool) (l : list A) :
  divisors (filterD f l) = flat_map (fun a => divisors (f a)) l.
Proof.
  induction l as [| a l IH]; simpl; [reflexivity |].
  rewrite !divisors_bind. simpl. now rewrite IH, app_nil_r.
Qed.

(** ** Sorting and the median *)

Lemma insert_In (a c : R) (l : list R) : In c (insert a l) <-> c = a \/ In c l.
Proof.
  induction l as [| x l IH]; simpl.
  - intuition.
  - destruct (leb a x); simpl; rewrite ?IH; intuition.
Qed.

Lemma sort_In (c : R) (l : list R) : In c (sort l) <-> In c l.
Proof.
  induction l as [| x l IH]; simpl; [tauto |].
  rewrite insert_In, IH. intuition.
Qed.

Lemma insert_length (a : R) (l : list R) : length (insert a l) = S (length l).
Proof.
  induction l as [| x l IH]; simpl; [reflexivity |].
  destruct (leb a x); simpl; now rewrite ?IH.
Qed.

Lemma sort_length (l : list R) : length (sort l) = length l.
Proof.
  induction l as [| x l IH]; simpl; [reflexivity |].
  now rewrite insert_length, IH.
Qed.

Lemma insert_sorted (a : R) (l : list R) : sorted l -> sorted (insert a l).
Proof.
  induction 1 as [| x | x y l Hxy Hs IH]; simpl.
  - constructor.
  - destruct (leb a x) eqn:E.
    + apply leb_true in E. apply sorted_cons; [lra | constructor].
    + apply leb_false in E. apply sorted_cons; [lra | constructor].
  - destruct (leb a x) eqn:E.
    + apply leb_true in E. apply sorted_cons; [lra |].
      now apply sorted_cons.
    + apply leb_false in E. simpl in IH.
      destruct (leb a y) eqn:E'.
      * apply leb_true in E'. apply sorted_cons; [lra | exact IH].
      * apply sorted_cons; assumption.
Qed.

Lemma sort_sorted (l : list R) : sorted (sort l).
Proof.
  induction l as [| x l IH]; simpl; [constructor | now apply insert_sorted].
Qed.

Lemma insert_perm (a : R) (l : list R) : Permutation (insert a l) (a :: l).
Proof.
  induction l as [| x l IH]; simpl; [reflexivity |].
  destruct (leb a x); [reflexivity |].
  rewrite IH. apply perm_swap.
Qed.

(** [sort] returns the ascending rearrangement of its argument. *)
Lemma sort_perm (l : list R) : Permutation (sort l) l.
Proof.
  induction l as [| x l IH]; simpl; [reflexivity |].
  now rewrite insert_perm, IH.
Qed.

(** ** The stages of the handler *)

Lemma value_pauseFilter (pts : list Point) :
  value (pauseFilter pts) = filter (fun p => value (pauseKeep p)) pts.
Proof. apply value_filterD. Qed.

Lemma filterIndex_nth {A : Type} (f : A -> R) (g : R -> bool) (l : list A) :
  forall pre : list R,
    filterIndex (fun i => g (nth i (pre ++ map f l) 0)) (length pre) l
    = filter (fun a => g (f a)) l.
Proof.
  induction l as [| a l IH]; intros pre; simpl; [reflexivity |].
  rewrite app_nth2, Nat.sub_diag by lia. simpl.
  specialize (IH (pre ++ [f a])).
  rewrite <- app_assoc, length_app, Nat.add_1_r in IH. simpl in IH.
  now rewrite IH.
Qed.

Lemma value_outlierFilter (pts : list Point) :
  value (outlierFilter pts) = filter (inBand (medianPace pts)) pts.
Proof.
  unfold outlierFilter. rewrite value_bind. simpl.
  rewrite value_mapD. simpl.
  apply (filterIndex_nth pace
           (fun x => geb x (0.5 * medianPace pts) && leb x (2.0 * medianPace pts))
           pts []).
Qed.

Lemma predictPerformance_pipeline
  (req : Request) (acts : list (option Activity)) (now : Date)
  (u : string) (targetKm : R) :
  userId req = Some u -> targetKmOf req = Fin targetKm -> 0 < targetKm ->
  value (predictPerformance req (Some acts) now) = pipeline targetKm acts now.
Proof.
  intros Hu Ht Hpos. unfold predictPerformance, pipeline.
  rewrite Hu, Ht. decide_cmp.
  destruct (Nat.ltb (length (normalize acts)) MIN_POINTS); [reflexivity |].
  rewrite value_bind.
  destruct (Nat.ltb (length (value (pauseFilter (normalize acts)))) MIN_POINTS);
    [reflexivity |].
  rewrite value_bind.
  destruct (Nat.ltb (length (value (outlierFilter
              (value (pauseFilter (normalize acts)))))) MIN_POINTS);
    [reflexivity |].
  rewrite value_bind.
  now destruct (value (fitPowerLaw now _)).
Qed.

(** ** What the filters keep *)

Lemma normalize_In (acts : list (option Activity)) (p : Point) :
  In p (normalize acts)
  <-> In p (mapNotNull mapStravaAct acts)
      /\ MIN_DISTANCE_M < distance p /\ 0 < movingTime p.
Proof.
  unfold normalize. rewrite filter_In, andb_true_iff, !gtb_true. tauto.
Qed.

Lemma mapNotNull_In {A B : Type} (f : A -> option B) (l : list A) (y : B) :
  In y (mapNotNull f l) <-> exists x, In x l /\ f x = Some y.
Proof.
  induction l as [| a l IH]; simpl.
  - split; [tauto | intros [x [[] _]]].
  - destruct (f a) as [y' |] eqn:E; simpl; rewrite IH; split.
    + intros [<- | [x [Hx Hf]]]; [exists a | exists x]; auto.
    + intros [x [[<- | Hx] Hf]]; [left; congruence | right; exists x; auto].
    + intros [x [Hx Hf]]. exists x; auto.
    + intros [x [[<- | Hx] Hf]]; [congruence | exists x; auto].
Qed.

Lemma filter_all {A : Type} (f : A -> bool) (l : list A) :
  (forall x, In x l -> f x = true) -> filter f l = l.
Proof.
  induction l as [| a l IH]; intros H; simpl; [reflexivity |].
  rewrite (H a) by now left. f_equal. apply IH. intros x Hx. apply H. now right.
Qed.

Lemma filter_length_le {A : Type} (f : A -> bool) (l : list A) :
  (length (filter f l) <= length l)%nat.
Proof.
  induction l as [| a l IH]; simpl; [lia |]. destruct (f a); simpl; lia.
Qed.

(** The points that reach the fit have a positive distance and a positive
    moving time. *)
Lemma fit_points_positive (acts : list (option Activity)) (p : Point) :
  In p (value (outlierFilter (value (pauseFilter (normalize acts))))) ->
  0 < distance p /\ 0 < movingTime p.
Proof.
  rewrite value_outlierFilter, filter_In, value_pauseFilter, filter_In.
  intros [[Hp _] _]. apply normalize_In in Hp as (_ & Hd & Ht).
  unfold MIN_DISTANCE_M in Hd. split; lra.
Qed.

(** ** The three minimum-volume gates *)

(** C5.  After normalisation, after the pause filter and after the outlier
    filter, fewer than 4 points make the handler answer status 400 with the
    message of that stage, the three messages being different; 4 points or
    more let it go on to the next stage, the last stage being the fit. *)
Theorem insufficient_data_gates
  (req : Request) (acts : list (option Activity)) (now : Date)
  (u : string) (targetKm : R) :
  userId req = Some u -> targetKmOf req = Fin targetKm -> 0 < targetKm ->
  let pts0 := normalize acts in
  let pts1 := value (pauseFilter pts0) in
  let pts2 := value (outlierFilter pts1) in
  let response := value (predictPerformance req (Some acts) now) in
  ((length pts0 < 4)%nat -> response = ErrorJson 400 tooFewValid)
  /\ ((4 <= length pts0)%nat -> (length pts1 < 4)%nat ->
      response = ErrorJson 400 tooFewClean)
  /\ ((4 <= length pts0)%nat -> (4 <= length pts1)%nat ->
      (length pts2 < 4)%nat ->
      response = ErrorJson 400 tooFewSteady)
  /\ ((4 <= length pts0)%nat -> (4 <= length pts1)%nat ->
      (4 <= length pts2)%nat ->
      response = match value (fitPowerLaw now pts2) with
                 | None => ErrorJson 500 "Model fit failed"
                 | Some fit => value (respond targetKm fit (length pts2))
                 end)
  /\ tooFewValid <> tooFewClean
  /\ tooFewValid <> tooFewSteady
  /\ tooFewClean <> tooFewSteady.
Proof.
  intros Hu Ht Hpos pts0 pts1 pts2 response.
  assert (E : response = pipeline targetKm acts now)
    by now apply (predictPerformance_pipeline _ _ _ u).
  rewrite E. unfold pipeline. fold pts0. fold pts1. fold pts2.
  unfold MIN_POINTS.
  repeat split; try discriminate; intros;
    repeat match goal with
    | H : (length ?l < 4)%nat |- _ => apply Nat.ltb_lt in H; rewrite H
    | H : (4 <= length ?l)%nat |- _ => apply Nat.ltb_ge in H; rewrite H
    end; reflexivity.
Qed.

(** *** Concrete runs *)

Lemma normalize_cons_run (d t : R) (e : option R) (start : Date)
  (acts : list (option Activity)) :
  MIN_DISTANCE_M < d -> 0 < t ->
  normalize (Some (runOf d t e start) :: acts)
  = mkPoint d t e start :: normalize acts.
Proof.
  intros Hd Ht. unfold normalize. cbn [mapNotNull].
  replace (mapStravaAct (Some (runOf d t e start)))
    with (Some (mkPoint d t e start)) by now destruct e.
  cbn [filter distance movingTime].
  apply gtb_true in Hd, Ht. now rewrite Hd, Ht.
Qed.

Lemma normalize_nil : normalize [] = [].
Proof. reflexivity. Qed.

Lemma pauseFilter_cons (p : Point) (pts : list Point) :
  value (pauseFilter (p :: pts))
  = if value (pauseKeep p) then p :: value (pauseFilter pts)
    else value (pauseFilter pts).
Proof. rewrite !value_pauseFilter. reflexivity. Qed.

Lemma pauseFilter_nil : value (pauseFilter []) = [].
Proof. reflexivity. Qed.

(** Run the three filters on a list of concrete runs. *)
Ltac run_normalize :=
  rewrite ?normalize_cons_run by (unfold MIN_DISTANCE_M; lra);
  rewrite ?normalize_nil.

Ltac run_pauseFilter :=
  rewrite ?pauseFilter_cons; rewrite ?pauseFilter_nil;
  unfold pauseKeep, MIN_MOVE_ELAPSED_RATIO;
  cbn [elapsedTime movingTime bind ret divide value fst];
  decide_cmp.

Ltac run_outlierFilter :=
  rewrite value_outlierFilter;
  unfold medianPace, median, inBand, pace;
  cbn [map length Nat.eqb Nat.div Nat.modulo Nat.divmod fst snd Nat.sub
       distance movingTime sort];
  repeat (cbn [insert]; decide_cmp);
  cbn [nth filter distance movingTime];
  decide_cmp;
  cbn [andb].

Lemma insufficient_data_gates_witness :
  let req := requestFor "athlete" 5 in
  let now := 345600000%Z in
  let pts := value (outlierFilter (value (pauseFilter (normalize fourRuns)))) in
  value (predictPerformance req (Some threeRuns) now)
  = ErrorJson 400 tooFewValid
  /\ value (predictPerformance req (Some pausedRuns) now)
     = ErrorJson 400 tooFewClean
  /\ value (predictPerformance req (Some unevenRuns) now)
     = ErrorJson 400 tooFewSteady
  /\ value (predictPerformance req (Some fourRuns) now)
     = match value (fitPowerLaw now pts) with
       | None => ErrorJson 500 "Model fit failed"
       | Some fit => value (respond 5 fit (length pts))
       end.
Proof.
  intros req now pts.
  assert (Hu : userId req = Some "athlete"%string) by reflexivity.
  assert (Ht : targetKmOf req = Fin 5) by reflexivity.
  assert (Hpos : 0 < 5) by lra.
  repeat split.
  - apply (proj1 (insufficient_data_gates req threeRuns now _ 5 Hu Ht Hpos)).
    unfold threeRuns. run_normalize. simpl. lia.
  - apply (proj1 (proj2
             (insufficient_data_gates req pausedRuns now _ 5 Hu Ht Hpos)));
      unfold pausedRuns; run_normalize; [simpl; lia |].
    run_pauseFilter. simpl. lia.
  - apply (proj1 (proj2 (proj2
             (insufficient_data_gates req unevenRuns now _ 5 Hu Ht Hpos))));
      unfold unevenRuns; run_normalize; [simpl; lia | |];
      run_pauseFilter; [simpl; lia |].
    run_outlierFilter. simpl. lia.
  - apply (proj1 (proj2 (proj2 (proj2
             (insufficient_data_gates req fourRuns now _ 5 Hu Ht Hpos)))));
      unfold fourRuns; run_normalize; [simpl; lia | |];
      run_pauseFilter; [simpl; lia |].
    run_outlierFilter. simpl. lia.
Defined.

(** ** The pause filter *)

Lemma pauseKeep_divisors (p : Point) (d : R) :
  In d (divisors (pauseKeep p)) -> elapsedTime p = Some d /\ 0 < d.
Proof.
  unfold pauseKeep. destruct (elapsedTime p) as [e |]; [| intros []].
  destruct (leb e 0) eqn:E; [intros [] |].
  apply leb_false in E. rewrite divisors_bind. simpl.
  intros [<- | []]. now split.
Qed.

Lemma pauseKeep_unknown_elapsed (p : Point) :
  elapsedTime p = None \/ (exists e, elapsedTime p = Some e /\ e <= 0) ->
  pauseKeep p = ret true.
Proof.
  unfold pauseKeep. intros [-> | [e [-> He]]]; [reflexivity |].
  apply leb_true in He. now rewrite He.
Qed.

Lemma pause_filter_positive (pts : list Point) :
  (forall d, In d (divisors (pauseFilter pts)) -> 0 < d)
  /\ (forall p, In p pts -> value (pauseKeep p) = true ->
        In p (value (pauseFilter pts))).
Proof.
  split.
  - intros d Hd. unfold pauseFilter in Hd. rewrite divisors_filterD in Hd.
    apply in_flat_map in Hd as [p [_ Hd]].
    now apply pauseKeep_divisors in Hd.
  - intros p Hp Hk. rewrite value_pauseFilter. now apply filter_In.
Qed.

(** C10.  The pause filter divides by the elapsed time of a point only when
    that time is present and strictly positive, so that each of its divisors
    is strictly positive; a point whose elapsed time is absent or not positive
    is kept, without any division. *)
Theorem pause_filter_divides_by_positive (pts : list Point) :
  (forall d, In d (divisors (pauseFilter pts)) ->
     0 < d /\ exists p, In p pts /\ elapsedTime p = Some d)
  /\ (forall p,
        In p pts ->
        elapsedTime p = None \/ (exists e, elapsedTime p = Some e /\ e <= 0) ->
        In p (value (pauseFilter pts))
        /\ value (pauseKeep p) = true
        /\ divisors (pauseKeep p) = []).
Proof.
  split.
  - intros d Hd. unfold pauseFilter in Hd. rewrite divisors_filterD in Hd.
    apply in_flat_map in Hd as [p [Hp Hd]].
    apply pauseKeep_divisors in Hd as [He Hpos].
    split; [assumption | now exists p].
  - intros p Hp He. apply pauseKeep_unknown_elapsed in He.
    rewrite value_pauseFilter, filter_In, He. now repeat split.
Qed.

Lemma pause_filter_divides_by_positive_witness :
  let stopped := mkPoint 5000 1500 (Some 0) 86400000 in
  let pts := [mkPoint 5000 1500 None 0; stopped;
              mkPoint 5000 1500 (Some 3000) 172800000] in
  In stopped (value (pauseFilter pts))
  /\ value (pauseKeep stopped) = true
  /\ divisors (pauseKeep stopped) = [].
Proof.
  intros stopped pts.
  apply (proj2 (pause_filter_divides_by_positive pts) stopped).
  - right. now left.
  - right. exists 0. split; [reflexivity | lra].
Defined.

(** ** The outlier filter *)

Lemma filter_map_swap {A B : Type} (g : A -> B) (f : B -> bool) (l : list A) :
  filter f (map g l) = map g (filter (fun a => f (g a)) l).
Proof.
  induction l as [| a l IH]; simpl; [reflexivity |].
  destruct (f (g a)); simpl; now rewrite IH.
Qed.





(** ** Normalisation *)

(** The type labels that [isRun] accepts: "run" in any mix of cases. *)
Lemma lowerChar_r (c : ascii) : lowerChar c = "r"%char <-> c = "r"%char \/ c = "R"%char.
Proof.
  split; [| intros [-> | ->]; reflexivity].
  destruct c as [[] [] [] [] [] [] [] []]; vm_compute; intros H;
    first [discriminate H | now left | now right].
Qed.

Lemma lowerChar_u (c : ascii) : lowerChar c = "u"%char <-> c = "u"%char \/ c = "U"%char.
Proof.
  split; [| intros [-> | ->]; reflexivity].
  destruct c as [[] [] [] [] [] [] [] []]; vm_compute; intros H;
    first [discriminate H | now left | now right].
Qed.

Lemma lowerChar_n (c : ascii) : lowerChar c = "n"%char <-> c = "n"%char \/ c = "N"%char.
Proof.
  split; [| intros [-> | ->]; reflexivity].
  destruct c as [[] [] [] [] [] [] [] []]; vm_compute; intros H;
    first [discriminate H | now left | now right].
Qed.

Lemma isRun_case_insensitive (ty : option string) :
  isRun ty = true
  <-> exists c1 c2 c3 : ascii,
        ty = Some (String c1 (String c2 (String c3 EmptyString)))
        /\ (c1 = "r" \/ c1 = "R")%char
        /\ (c2 = "u" \/ c2 = "U")%char
        /\ (c3 = "n" \/ c3 = "N")%char.
Proof.
  unfold isRun. split.
  - destruct ty as [s |]; [| discriminate].
    rewrite String.eqb_eq.
    destruct s as [| c1 [| c2 [| c3 [| c4 s]]]]; simpl; try discriminate.
    intros H. injection H as H1 H2 H3.
    exists c1, c2, c3. repeat split;
      [now apply lowerChar_r | now apply lowerChar_u | now apply lowerChar_n].
  - intros (c1 & c2 & c3 & -> & H1 & H2 & H3).
    apply lowerChar_r in H1. apply lowerChar_u in H2. apply lowerChar_n in H3.
    rewrite String.eqb_eq. simpl. now rewrite H1, H2, H3.
Qed.

Lemma mapStravaAct_Some (a : option Activity) (p : Point) :
  mapStravaAct a = Some p
  <-> exists a', a = Some a' /\ isRun (a_type a') = true /\ pointOf a' p.
Proof.
  unfold mapStravaAct, pointOf. split.
  - destruct a as [a' |]; [| discriminate].
    destruct (isRun (a_type a')) eqn:Hrun; [| discriminate]. simpl.
    destruct (a_distance a') as [d | | |] eqn:Hd; try discriminate.
    destruct (a_moving_time a') as [t | | |] eqn:Ht; try discriminate.
    destruct (a_start_date a') as [s |] eqn:Hs; try discriminate.
    intros H. injection H as <-. exists a'. simpl. repeat split; assumption.
  - intros (a' & -> & Hrun & Hd & Ht & Hs & He).
    rewrite Hrun, Hd, Ht, Hs. simpl. destruct p. simpl in *. now rewrite He.
Qed.

(** C3, as the code has it.  The points after normalisation are exactly the
    points made of the records whose type label is "run" in any mix of cases,
    whose distance is finite and strictly above 800 m, whose moving time is
    finite and strictly positive, and whose start time parses: every point
    comes from such a record, and every such record gives its point. *)
Theorem normalize_keeps_valid_runs (acts : list (option Activity)) :
  (forall p, In p (normalize acts) ->
     exists a, In (Some a) acts /\ validRun a /\ pointOf a p)
  /\ (forall a, In (Some a) acts -> validRun a ->
        exists p, pointOf a p /\ In p (normalize acts)).
Proof.
  split.
  - intros p Hp. apply normalize_In in Hp as [Hp [Hd Ht]].
    apply mapNotNull_In in Hp as [x [Hin Hmap]].
    apply mapStravaAct_Some in Hmap as (a & -> & Hrun & Hp).
    exists a. split; [assumption |]. split; [| assumption].
    destruct Hp as (Hpd & Hpt & Hps & _).
    split; [assumption |]. split; [| split].
    + now exists (distance p).
    + now exists (movingTime p).
    + now exists (startDate p).
  - intros a Hin (Hrun & [d [Hd Hd']] & [t [Ht Ht']] & [s Hs]).
    set (p := {| distance := d; movingTime := t;
                 elapsedTime := match a_elapsed_time a with
                                | Some (Fin e) => Some e
                                | _ => None
                                end;
                 startDate := s |}).
    assert (Hp : pointOf a p) by (unfold pointOf; now repeat split).
    exists p. split; [assumption |].
    apply normalize_In. split; [| now split].
    apply mapNotNull_In. exists (Some a). split; [assumption |].
    apply mapStravaAct_Some. now exists a.
Qed.

Lemma normalize_keeps_valid_runs_witness :
  exists p,
    pointOf (runOf 5000 1500 None 0) p
    /\ In p (normalize [None; Some (runOf 5000 1500 None 0)]).
Proof.
  apply (proj2 (normalize_keeps_valid_runs
                  [None; Some (runOf 5000 1500 None 0)])).
  - right. now left.
  - repeat split.
    + exists 5000. split; [reflexivity | unfold MIN_DISTANCE_M; lra].
    + exists 1500. split; [reflexivity | lra].
    + now exists 0%Z.
Defined.

(** C3, as the spec states it, fails: a run of 500 m in 200 s is valid in the
    spec's sense and is discarded. *)
Lemma normalize_discards_short_run :
  validPerSpec (runOf 500 200 None 0)
  /\ normalize [Some (runOf 500 200 None 0)] = [].
Proof.
  split.
  - repeat split.
    + exists 500. split; [reflexivity | lra].
    + exists 200. split; [reflexivity | lra].
    + now exists 0%Z.
  - unfold normalize. cbn [mapNotNull].
    change (mapStravaAct (Some (runOf 500 200 None 0)))
      with (Some (mkPoint 500 200 None 0)).
    cbn [filter distance movingTime]. unfold MIN_DISTANCE_M. decide_cmp.
    reflexivity.
Qed.

(** ** A fit that succeeds *)

Lemma fitPowerLaw_Some (now : Date) (pts : list Point) (fit : Fit) :
  value (fitPowerLaw now pts) = Some fit ->
  let s := fitSums now pts in
  let det := fitDeterminant now pts in
  (2 <= length pts)%nat
  /\ 1e-12 <= Rabs det
  /\ sw s <> 0
  /\ logA fit = (swy s * swxx s - swx s * swxy s) / det
  /\ b fit = (sw s * swxy s - swx s * swy s) / det
  /\ (exists sse, rmseLog fit = sqrt (sse / sw s))
  /\ divisors (fitPowerLaw now pts) = [det; det; sw s].
Proof.
  unfold fitPowerLaw. fold (fitSums now pts).
  change (determinant (fitSums now pts)) with (fitDeterminant now pts).
  destruct (Nat.ltb (length pts) 2) eqn:Hlen; [discriminate |].
  apply Nat.ltb_ge in Hlen.
  destruct (ltb (Rabs (fitDeterminant now pts)) 1e-12) eqn:Hdet;
    [discriminate |].
  destruct (eqb (sw (fitSums now pts)) 0) eqn:Hsw; [discriminate |].
  reflect_cmp. cbn [orb].
  rewrite !value_bind, !divisors_bind. cbn [value divisors divide ret fst snd app].
  intros H. injection H as <-. cbn [logA b rmseLog].
  repeat split; try assumption. eexists. reflexivity.
Qed.

Lemma value_respond (targetKm : R) (fit : Fit) (used : nat) :
  0 < targetKm ->
  value (respond targetKm fit used)
  = let predSec := predictSeconds (logA fit) (b fit) (targetKm * 1000) in
    PredictionJson
      {| distance_km := targetKm;
         prediction_seconds := toFixed1 predSec;
         prediction_time := formatHHMMSS predSec;
         pace_per_km := value (pacePerKm predSec targetKm);
         confidence_low_time := formatHHMMSS (lowBound predSec (rmseLog fit));
         confidence_high_time := formatHHMMSS (highBound predSec (rmseLog fit));
         model := fit;
         used_points := used |}.
Proof. intros H. unfold respond. now rewrite value_bind. Qed.

(** ** Whole numbers *)



(** ** No division by zero *)

Lemma divisors_outlierFilter (pts : list Point) :
  divisors (outlierFilter pts) = map distance pts.
Proof.
  unfold outlierFilter. rewrite divisors_bind, divisors_mapD.
  cbn [divisors ret snd]. rewrite app_nil_r.
  induction pts as [| p pts IH]; [reflexivity |].
  cbn [flat_map map divisors divide snd app]. now rewrite <- IH.
Qed.

Lemma divisors_fitPowerLaw (now : Date) (pts : list Point) (d : R) :
  In d (divisors (fitPowerLaw now pts)) -> 1e-12 <= Rabs d \/ d <> 0.
Proof.
  destruct (value (fitPowerLaw now pts)) as [fit |] eqn:Hfit.
  - apply fitPowerLaw_Some in Hfit as (_ & Hdet & Hsw & _ & _ & _ & ->).
    intros [<- | [<- | [<- | []]]]; auto.
  - revert Hfit. unfold fitPowerLaw.
    destruct (Nat.ltb (length pts) 2); [intros _ [] |].
    match goal with
    | |- context [if ?c then _ else _] => destruct c; [intros _ [] |]
    end.
    rewrite !value_bind. discriminate.
Qed.

Lemma divisors_respond (targetKm : R) (fit : Fit) (used : nat) :
  0 < targetKm -> divisors (respond targetKm fit used) = [targetKm].
Proof.
  intros H. unfold respond, pacePerKm.
  replace (gtb targetKm 0) with true by (symmetry; now apply gtb_true).
  now rewrite !divisors_bind.
Qed.

(** Whatever the request and the activities, the handler never divides by
    zero: it divides by elapsed times that are positive, by distances above
    [MIN_DISTANCE_M], by a determinant and a sum of weights that passed the
    guard of [fitPowerLaw], and by a positive target. *)
Lemma predictPerformance_divisors
  (req : Request) (fetched : option (list (option Activity))) (now : Date)
  (d : R) :
  In d (divisors (predictPerformance req fetched now)) -> d <> 0.
Proof.
  unfold predictPerformance.
  destruct (userId req) as [u |]; [| intros []].
  destruct (targetKmOf req) as [targetKm | | |]; try (intros []).
  destruct (leb targetKm 0) eqn:Hpos; [intros [] |]. reflect_cmp.
  destruct fetched as [acts |]; [| intros []].
  set (pts0 := normalize acts).
  destruct (Nat.ltb (length pts0) MIN_POINTS); [intros [] |].
  rewrite divisors_bind. intros H. apply in_app_or in H as [H | H].
  { apply (proj1 (pause_filter_positive pts0)) in H. lra. }
  set (pts1 := value (pauseFilter pts0)) in *. cbv beta in H.
  destruct (Nat.ltb (length pts1) MIN_POINTS); [destruct H |].
  rewrite divisors_bind in H. apply in_app_or in H as [H | H].
  { rewrite divisors_outlierFilter in H.
    apply in_map_iff in H as [p [<- Hp]].
    unfold pts1 in Hp. rewrite value_pauseFilter in Hp.
    apply filter_In in Hp as [Hp _].
    apply normalize_In in Hp as (_ & Hd & _). unfold MIN_DISTANCE_M in Hd. lra. }
  set (pts2 := value (outlierFilter pts1)) in *. cbv beta in H.
  destruct (Nat.ltb (length pts2) MIN_POINTS); [destruct H |].
  rewrite divisors_bind in H. apply in_app_or in H as [H | H].
  { apply divisors_fitPowerLaw in H as [H | H]; [| assumption].
    intros ->. rewrite Rabs_R0 in H. lra. }
  cbv beta in H.
  destruct (value (fitPowerLaw now pts2)) as [fit |]; [| destruct H].
  rewrite divisors_respond in H by assumption.
  destruct H as [<- | []]. lra.
Qed.

(** * Properties in binary64 *)

(** ** The runtime of the tables *)

Lemma tabulated_reference : tabulated reference.
Proof.
  unfold tabulated, reference.
  cbn [Binary64.Math_log Binary64.Math_exp Binary64.Math_pow].
  split; [repeat constructor |].
  split; [repeat constructor |].
  split; [repeat constructor |].
  split; reflexivity.
Qed.


(** The tables as equations on the three functions of a runtime, and the
    evaluation of a goal with them. *)
Ltac tables H :=
  unfold tabulated, logTable, expTable, powTable in H;
  cbn [Binary64.Math_log Binary64.Math_exp Binary64.Math_pow] in H;
  repeat match type of H with
         | _ /\ _ => let T := fresh "T" in destruct H as [T H]
         end;
  repeat match goal with
         | T : Forall _ (_ :: _) |- _ =>
             let E := fresh "E" in
             apply Forall_cons_iff in T; destruct T as [E T];
             cbn [fst snd] in E
         | T : Forall _ [] |- _ => clear T
         end;
  repeat match goal with
         | E : _ = _ :> float |- _ => progress vm_compute in E
         end.

Ltac consult :=
  repeat match goal with
         | E : ?f ?x = _ |- context [?f ?x] => rewrite E
         | E : ?f ?x ?y = _ |- context [?f ?x ?y] => rewrite E
         end.

Ltac run := vm_compute; repeat (progress consult; vm_compute).


(** ** Signs of binary64 results *)

Section Signs.
Local Open Scope Z_scope.

Lemma shr_1_nonneg (mrs : shr_record) :
  0 <= shr_m mrs -> 0 <= shr_m (shr_1 mrs).
Proof.
  destruct mrs as [m r s]. simpl.
  destruct m as [| [p | p |] | p]; simpl; lia.
Qed.

Lemma iter_shr_1_nonneg (n : positive) :
  forall mrs, 0 <= shr_m mrs -> 0 <= shr_m (SpecFloat.iter_pos shr_1 n mrs).
Proof.
  induction n as [n IH | n IH |]; intros mrs H; simpl.
  - apply IH, IH, shr_1_nonneg, H.
  - apply IH, IH, H.
  - apply shr_1_nonneg, H.
Qed.

Lemma shr_fexp_nonneg (m e : Z) (l : location) :
  0 <= m -> 0 <= shr_m (fst (shr_fexp prec emax m e l)).
Proof.
  intros H. unfold shr_fexp, shr.
  assert (H0 : 0 <= shr_m (shr_record_of_loc m l)).
  { destruct l as [| []]; exact H. }
  destruct (fexp prec emax (Zdigits2 m + e) - e); simpl; try exact H0.
  now apply iter_shr_1_nonneg.
Qed.

Lemma round_nearest_even_nonneg (m : Z) (l : location) :
  0 <= m -> 0 <= round_nearest_even m l.
Proof.
  intros H. destruct l as [| []]; simpl; try lia.
  destruct (Z.even m); lia.
Qed.

(** Rounding a magnitude gives a zero, a finite number or an infinity of the
    sign it is given, never NaN. *)
Lemma binary_round_aux_signed (s : bool) (m e : Z) (l : location) :
  0 <= m -> signed s (binary_round_aux prec emax s m e l).
Proof.
  intros H. unfold binary_round_aux.
  pose proof (shr_fexp_nonneg m e l H) as H1.
  destruct (shr_fexp prec emax m e l) as [mrs' e']. simpl in H1.
  pose proof (shr_fexp_nonneg _ e' loc_Exact
                (round_nearest_even_nonneg _ (loc_of_shr_record mrs') H1))
    as H2.
  destruct (shr_fexp prec emax _ e' loc_Exact) as [mrs'' e'']. simpl in H2.
  destruct (shr_m mrs''); try lia.
  - reflexivity.
  - destruct (e'' <=? emax - prec); reflexivity.
Qed.

Lemma of_uint63_signed (n : PrimInt63.int) :
  signed false (Prim2SF (of_uint63 n)).
Proof.
  rewrite of_uint63_spec.
  pose proof (Uint63.to_Z_bounded n) as [H _].
  destruct (Uint63Axioms.to_Z n) as [| p | p]; [reflexivity | | lia].
  unfold binary_normalize, binary_round.
  destruct (shl_align p 0 _) as [mz ez].
  apply binary_round_aux_signed. lia.
Qed.

Lemma ofZ_signed (z : Z) : signed (z <? 0) (Prim2SF (Binary64.ofZ z)).
Proof.
  unfold Binary64.ofZ. destruct (z <? 0).
  - rewrite opp_spec.
    pose proof (of_uint63_signed (Uint63.of_Z (- z))) as H.
    destruct (Prim2SF _) as [[] | [] | | [] m e]; simpl in *; congruence.
  - apply of_uint63_signed.
Qed.

Lemma SF64div_signed (x : spec_float) (m : positive) (e : Z) :
  signed false x -> signed false (SF64div x (S754_finite false m e)).
Proof.
  destruct x as [s | s | | s mx ex]; simpl; intros H; subst; try easy.
  unfold SFdiv_core_binary.
  set (m' := match _ with Zpos _ => _ | Z0 => _ | Zneg _ => _ end).
  assert (Hm : 0 <= m').
  { unfold m'. destruct (_ - _ - _); try lia. apply Z.shiftl_nonneg. lia. }
  pose proof (Z.div_eucl_eq m' (Zpos m) ltac:(lia)) as Heq.
  pose proof (Z.mod_pos_bound m' (Zpos m) ltac:(lia)) as Hr.
  unfold Z.modulo in Hr.
  destruct (Z.div_eucl m' (Z.pos m)) as [q r].
  apply binary_round_aux_signed. nia.
Qed.

Lemma div_signed (x c : float) (m : positive) (e : Z) :
  Prim2SF c = S754_finite false m e ->
  signed false (Prim2SF x) -> signed false (Prim2SF (x / c)).
Proof.
  intros Hc H. rewrite div_spec, Hc. now apply SF64div_signed.
Qed.

Lemma SFcompare_refl (x : spec_float) (s : bool) :
  signed s x -> SFcompare x x = Some Eq.
Proof.
  destruct x as [s' | s' | | s' m e]; simpl; intros H; try easy.
  - now destruct s'.
  - rewrite Z.compare_refl, Pos.compare_cont_refl. now destruct s'.
Qed.

Lemma is_nan_signed (x : float) (s : bool) :
  signed s (Prim2SF x) -> is_nan x = false.
Proof.
  intros H. unfold is_nan. rewrite FloatAxioms.eqb_spec. unfold SFeqb.
  now rewrite (SFcompare_refl _ s).
Qed.

Lemma leb_0_signed (x : float) :
  signed false (Prim2SF x) -> (0 <=? x)%float = true.
Proof.
  intros H. rewrite FloatAxioms.leb_spec.
  change (Prim2SF 0) with (S754_zero false).
  destruct (Prim2SF x) as [s | s | | s m e]; simpl in H; subst; easy.
Qed.

(** [Math.max(0, x)] is zero for a negative [x], and not negative for every
    [x] that is not NaN. *)
Lemma Math_max_0_negative (x : float) :
  signed true (Prim2SF x) -> Binary64.Math_max 0 x = 0%float.
Proof.
  intros H. unfold Binary64.Math_max.
  rewrite (is_nan_signed x true H).
  change (is_nan 0) with false. cbn [orb].
  rewrite !FloatAxioms.ltb_spec. change (Prim2SF 0) with (S754_zero false).
  destruct (Prim2SF x) as [s | s | | s m e]; simpl in H; subst; try easy.
Qed.

Lemma Math_max_0_signed (x : float) (s : bool) :
  signed s (Prim2SF x) -> signed false (Prim2SF (Binary64.Math_max 0 x)).
Proof.
  intros H. destruct s.
  - now rewrite Math_max_0_negative.
  - unfold Binary64.Math_max. rewrite (is_nan_signed x false H).
    change (is_nan 0) with false. cbn [orb].
    destruct (0 <? x)%float; [exact H |].
    destruct (x <? 0)%float; [reflexivity |].
    change (get_sign 0) with false. reflexivity.
Qed.

Lemma ageExponent_signed (start now : Date) :
  signed false (Prim2SF (ageExponent start now)).
Proof.
  unfold ageExponent.
  eapply div_signed; [vm_compute; reflexivity |].
  eapply div_signed; [vm_compute; reflexivity |].
  apply (Math_max_0_signed _ _ (ofZ_signed _)).
Qed.

Lemma ageExponent_future (start now : Date) :
  now <= start -> ageExponent start now = 0%float.
Proof.
  intros H. unfold ageExponent, Binary64.elapsedMs.
  assert (E : Binary64.Math_max 0 (Binary64.ofZ (now - start)) = 0%float).
  { destruct (Z.eq_dec now start) as [-> | Hne].
    - rewrite Z.sub_diag. reflexivity.
    - apply Math_max_0_negative.
      pose proof (ofZ_signed (now - start)) as Hs.
      replace (now - start <? 0) with true in Hs; [exact Hs |].
      symmetry. apply Z.ltb_lt. lia. }
  rewrite E. reflexivity.
Qed.

End Signs.

(** ** Recency weights in binary64 *)

Section Weights64.
Import Binary64.
Local Open Scope float_scope.

Lemma recencyWeight_ageExponent (rt : Runtime) (start now : Date) :
  recencyWeight rt start now = Math_pow rt 0.5 (ageExponent start now).
Proof. reflexivity. Qed.

Lemma In_halfLives (k : Z) : (0 <= k <= 1100)%Z -> In k halfLives.
Proof.
  intros H. unfold halfLives. apply in_map_iff. exists (Z.to_nat k).
  split; [lia | apply in_seq; lia].
Qed.

(** After [k] half-lives of 60 days the exponent is the whole number [k]. *)
Lemma ageExponent_half_lives (start now : Date) (k : Z) :
  (0 <= k <= 1100)%Z -> (now - start = k * 5184000000)%Z ->
  ageExponent start now = ofZ k.
Proof.
  intros Hk E. unfold ageExponent, elapsedMs. rewrite E.
  assert (Hall : forallb
            (fun k => Leibniz.eqb
                        (Math_max 0 (ofZ (k * 5184000000)) / 86400000
                         / HALF_LIFE_DAYS) (ofZ k)) halfLives = true)
    by (vm_compute; reflexivity).
  rewrite forallb_forall in Hall.
  apply FloatAxioms.Leibniz.eqb_spec, Hall, In_halfLives, Hk.
Qed.

(** The powers of one half: each is half of the one before, rounded; they
    decrease down to the smallest positive number, 2^-1074, and are zero
    from 2^-1075 on. *)
Lemma ldexp_halves (k : Z) :
  (0 <= k < 1100)%Z ->
  Z.ldexp 1 (- (k + 1)) = 0.5 * Z.ldexp 1 (- k)
  /\ ((k < 1075)%Z -> (Z.ldexp 1 (- (k + 1)) <? Z.ldexp 1 (- k)) = true)
  /\ ((1075 <= k)%Z -> Z.ldexp 1 (- k) = 0).
Proof.
  intros Hk.
  assert (Hall : forallb
            (fun k =>
               Leibniz.eqb (Z.ldexp 1 (- (k + 1))) (0.5 * Z.ldexp 1 (- k))
               && (if (k <? 1075)%Z
                   then Z.ldexp 1 (- (k + 1)) <? Z.ldexp 1 (- k)
                   else Leibniz.eqb (Z.ldexp 1 (- k)) 0)) halfLives = true)
    by (vm_compute; reflexivity).
  rewrite forallb_forall in Hall.
  specialize (Hall k (In_halfLives k ltac:(lia))).
  apply andb_true_iff in Hall as [H1 H2].
  apply FloatAxioms.Leibniz.eqb_spec in H1.
  split; [exact H1 | split; intros H].
  - apply Z.ltb_lt in H. now rewrite H in H2.
  - apply Z.ltb_ge in H. rewrite H in H2.
    now apply FloatAxioms.Leibniz.eqb_spec.
Qed.

(** The powers of one half on the grid lie between 0 and 1, both
    included. *)
Lemma ldexp_unit_range (k : Z) :
  (0 <= k <= 1100)%Z ->
  (0 <=? Z.ldexp 1 (- k)) = true /\ (Z.ldexp 1 (- k) <=? 1) = true.
Proof.
  intros Hk.
  assert (Hall : forallb
            (fun k => (0 <=? Z.ldexp 1 (- k)) && (Z.ldexp 1 (- k) <=? 1))
            halfLives = true)
    by (vm_compute; reflexivity).
  rewrite forallb_forall in Hall.
  specialize (Hall k (In_halfLives k Hk)).
  now apply andb_true_iff in Hall.
Qed.



(** The weights of two runs dated 1 January 1700 and 1 January 1800, at the
    exponents 1971.5 and 1362.8: the powers of one half underflow. *)
Lemma weights_of_1700_and_1800 (rt : Runtime) :
  tabulated rt ->
  recencyWeight rt (-8520336000000) today = 0
  /\ recencyWeight rt (-5364662400000) today = 0.
Proof.
  destruct rt as [log exp pow]. intros H. tables H.
  split; run; reflexivity.
Qed.


(** C9, as the code has it.  The weight is [Math.pow] of one half and an
    exponent that is a number, never NaN, and is not negative; the weight
    therefore lies between 0 and 1, both included, with every [Math.pow]
    that keeps such powers of one half there.  With a [Math.pow] that raises
    one half to a whole number exactly, a run that is a whole number [k] of
    half-lives old has a weight between 0 and 1, which is 1 for no half-life
    and 0 from 1075 half-lives on.  A run dated after [now] has its age
    clamped: the exponent is zero and the weight, [Math.pow(0.5, 0)], is
    exactly 1. *)
Theorem recencyWeight_closed_range (rt : Runtime) (start now : Date) :
  recencyWeight rt start now = Math_pow rt 0.5 (ageExponent start now)
  /\ (0 <=? ageExponent start now) = true
  /\ ((forall y, (0 <=? y) = true ->
         (0 <=? Math_pow rt 0.5 y) = true /\ (Math_pow rt 0.5 y <=? 1) = true) ->
      (0 <=? recencyWeight rt start now) = true
      /\ (recencyWeight rt start now <=? 1) = true)
  /\ (halving rt ->
      forall k, (0 <= k <= 1100)%Z ->
        (now - start = k * (60 * 86400000))%Z ->
        (0 <=? recencyWeight rt start now) = true
        /\ (recencyWeight rt start now <=? 1) = true
        /\ (k = 0%Z -> recencyWeight rt start now = 1)
        /\ ((1075 <= k)%Z -> recencyWeight rt start now = 0))
  /\ ((now <= start)%Z ->
      ageExponent start now = 0
      /\ (Math_pow rt 0.5 0 = 1 -> recencyWeight rt start now = 1)).
Proof.
  pose proof (leb_0_signed _ (ageExponent_signed start now)) as Hn.
  split; [reflexivity |]. split; [exact Hn |]. split; [| split].
  - intros Hpow. rewrite recencyWeight_ageExponent. now apply Hpow.
  - intros H k Hk E.
    assert (W : recencyWeight rt start now = Z.ldexp 1 (- k)).
    { rewrite recencyWeight_ageExponent, (ageExponent_half_lives _ _ k)
        by (lia || exact E).
      now apply H. }
    rewrite W. destruct (ldexp_unit_range k Hk) as [H0 H1].
    split; [exact H0 |]. split; [exact H1 |]. split.
    + intros ->. reflexivity.
    + intros Hz.
      destruct (Z.eq_dec k 1100) as [-> | Hne]; [reflexivity |].
      now apply (ldexp_halves k ltac:(lia)).
  - intros H. pose proof (ageExponent_future start now H) as E.
    split; [exact E |]. intros H0.
    now rewrite recencyWeight_ageExponent, E.
Qed.

(** C9, as the spec states it, fails: a run dated 1 January 1800 has the
    weight zero, which is not in (0, 1]. *)
Lemma weight_of_1800_is_zero :
  recencyWeight reference (-5364662400000) today = 0
  /\ (0 <? recencyWeight reference (-5364662400000) today) = false.
Proof.
  destruct (weights_of_1700_and_1800 reference tabulated_reference)
    as [_ ->].
  split; reflexivity.
Qed.

End Weights64.

(** ** The fit and the bounds in binary64 *)

Section Fit64.
Import Binary64.
Local Open Scope float_scope.

(** The guard of [fitPowerLaw] on the determinant. *)
Lemma fitPowerLaw_guard (rt : Runtime) (now : Date) (pts : list Point) :
  (abs (determinant (fitSums rt now pts)) <? 1e-12) = true ->
  fitPowerLaw rt now pts = None.
Proof.
  intros H. unfold fitPowerLaw. destruct (Nat.ltb (length pts) 2);
    [reflexivity |].
  fold (fitSums rt now pts). rewrite H, orb_true_r. reflexivity.
Qed.

Lemma steady_runs_reach_the_fit
  (rt : Runtime) (u : string) (start step now : Date) :
  cleanPoints (steadyFloatRuns (evenlySpaced start step 5))
  = map (floatPoint 5000 1500) (evenlySpaced start step 5)
  /\ predictPerformance rt (floatRequest u 5)
       (Some (steadyFloatRuns (evenlySpaced start step 5))) now
     = match fitPowerLaw rt now
               (map (floatPoint 5000 1500) (evenlySpaced start step 5)) with
       | None => ErrorJson 500 "Model fit failed"
       | Some fit => respond rt 5 fit 5
       end.
Proof. split; reflexivity. Qed.

Lemma weekly_steady_runs_determinant (rt : Runtime) :
  tabulated rt ->
  determinant
    (fitSums rt 1702419200000
       (map (floatPoint 5000 1500) (evenlySpaced 1700000000000 604800000 5)))
  = -0x1p-42.
Proof.
  destruct rt as [log exp pow]. intros H. tables H.
  run. reflexivity.
Qed.

(** C1, as the code has it.  Five runs of 5000 m in 1500 s, evenly spaced
    in time, and a target of 5 km: the five runs pass the three gates and
    reach the fit.  They have one distance, so that the determinant of the
    normal equations, which is zero in exact arithmetic, is what rounding
    leaves of it; whenever that is below 1e-12 in absolute value, the handler
    answers status 500, "Model fit failed".  For runs one week apart, the
    last one dated [now], it is -2^-42. *)
Theorem five_steady_runs_degenerate
  (rt : Runtime) (u : string) (start step now : Date) :
  let acts := steadyFloatRuns (evenlySpaced start step 5) in
  let pts := map (floatPoint 5000 1500) (evenlySpaced start step 5) in
  let weekly := evenlySpaced 1700000000000 604800000 5 in
  cleanPoints acts = pts
  /\ (forall p, In p pts -> distance p = 5000 /\ movingTime p = 1500)
  /\ ((abs (determinant (fitSums rt now pts)) <? 1e-12) = true ->
      predictPerformance rt (floatRequest u 5) (Some acts) now
      = ErrorJson 500 "Model fit failed")
  /\ (tabulated rt ->
      determinant
        (fitSums rt 1702419200000 (map (floatPoint 5000 1500) weekly))
      = -0x1p-42
      /\ predictPerformance rt (floatRequest u 5)
           (Some (steadyFloatRuns weekly)) 1702419200000
         = ErrorJson 500 "Model fit failed").
Proof.
  intros acts pts weekly. subst acts pts weekly.
  split; [reflexivity |]. split.
  { intros p Hp. apply in_map_iff in Hp as [s [<- _]]. now split. }
  split.
  - intros H.
    rewrite (proj2 (steady_runs_reach_the_fit rt u start step now)).
    now rewrite fitPowerLaw_guard.
  - intros H. pose proof (weekly_steady_runs_determinant rt H) as D.
    split; [exact D |].
    rewrite (proj2 (steady_runs_reach_the_fit rt u _ _ _)).
    rewrite fitPowerLaw_guard; [reflexivity |].
    rewrite D. reflexivity.
Qed.

(** C1, as the spec states it, fails: on five such runs, one week apart, the
    last one dated [now], the handler answers 500 and no prediction. *)
Lemma five_steady_runs_no_prediction :
  let acts := steadyFloatRuns (evenlySpaced 1700000000000 604800000 5) in
  predictPerformance reference (floatRequest "athlete" 5) (Some acts)
    1702419200000
  = ErrorJson 500 "Model fit failed".
Proof.
  intros acts. subst acts.
  rewrite (proj2 (steady_runs_reach_the_fit reference _ _ _ _)).
  rewrite fitPowerLaw_guard; [reflexivity |].
  now rewrite (weekly_steady_runs_determinant reference tabulated_reference).
Qed.

Lemma identicalRuns_determinant (rt : Runtime) :
  tabulated rt ->
  cleanPoints identicalRuns = repeat (floatPoint 10000 3000 today) 6
  /\ fitSums rt today (cleanPoints identicalRuns)
     = {| sw := 6; swx := 0x1.ba18a998fffa2p+5; swy := 0x1.804e3ea2c7049p+5;
          swxx := 0x1.fcfb72adb5f9ep+8; swxy := 0x1.ba72beb82b4dcp+8 |}.
Proof.
  destruct rt as [log exp pow]. intros H. tables H.
  split; [reflexivity |]. run. reflexivity.
Qed.

(** C2, on a failing input.  Six runs of 10000 m in 3000 s, all dated [now]:
    the determinant that the code computes is -1.5 * 2^-40, about -1.36e-12;
    the guard lets it pass, the two coefficients are quotients by it, and
    the handler answers with a prediction of 2980.96 s for 5 km. *)
Theorem identical_runs_fit_accepted (rt : Runtime) :
  tabulated rt ->
  let pts := cleanPoints identicalRuns in
  let s := fitSums rt today pts in
  (forall p, In p pts -> distance p = 10000 /\ movingTime p = 3000)
  /\ determinant s = -0x1.8p-40
  /\ (abs (determinant s) <? 1e-12) = false
  /\ fitPowerLaw rt today pts
     = Some {| logA := (swy s * swxx s - swx s * swxy s) / determinant s;
               b := (sw s * swxy s - swx s * swy s) / determinant s;
               rmseLog := 0x1.a14e0ed0188p-8 |}
  /\ predictPerformance rt (floatRequest "athlete" 5) (Some identicalRuns)
       today
     = PredictionJson
         {| distance_km := 5;
            predSec := 0x1.749ea7d470c6ep+11;
            lowSec := 0x1.72412dcb6f496p+11;
            highSec := 0x1.76ffffffffffbp+11;
            model := {| logA := 8; b := -0; rmseLog := 0x1.a14e0ed0188p-8 |};
            used_points := 6 |}.
Proof.
  intros H pts s.
  destruct (identicalRuns_determinant rt H) as [P S].
  unfold s, pts. rewrite S. clear S s.
  split.
  { unfold pts. rewrite P. intros p Hp. apply repeat_spec in Hp as ->.
    now split. }
  split; [reflexivity |]. split; [reflexivity |].
  destruct rt as [log exp pow]. tables H.
  split; run; reflexivity.
Qed.

Lemma identical_runs_fit_accepted_witness :
  fitPowerLaw reference today (cleanPoints identicalRuns)
  = Some {| logA := 8; b := -0; rmseLog := 0x1.a14e0ed0188p-8 |}.
Proof.
  exact (proj1 (proj2 (proj2 (proj2
           (identical_runs_fit_accepted reference tabulated_reference))))).
Defined.

(** C7, on two failing inputs.  Four runs whose seconds are their metres:
    the fit is the exact law, with a residual of zero, the prediction for
    5 km is 5000 s, and the lower bound, the exponential of the logarithm of
    5000, is 5000.000000000004 s, above the prediction.  Five runs of 5000 m
    to 5004 m in 1480 s to 1700 s: the fit has the exponent 176.4, the
    prediction is the product of a zero and an infinity, NaN, and so are
    the bounds. *)
Theorem bounds_out_of_order (rt : Runtime) :
  tabulated rt ->
  (exists p,
     predictPerformance rt (floatRequest "athlete" 5) (Some unitPaceRuns) today
     = PredictionJson p
     /\ rmseLog (model p) = 0
     /\ predSec p = 5000
     /\ lowSec p = 0x1.3880000000004p+12
     /\ (lowSec p <=? predSec p) = false)
  /\ (exists p,
        predictPerformance rt (floatRequest "athlete" 5) (Some nearbyRuns)
          today
        = PredictionJson p
        /\ (0 <=? rmseLog (model p)) = true
        /\ b (model p) = 0x1.60d2ae4ef3f7dp+7
        /\ predSec p = nan
        /\ (lowSec p <=? predSec p) = false
        /\ (predSec p <=? highSec p) = false).
Proof.
  intros H. destruct rt as [log exp pow]. tables H. split.
  - eexists. split; [run; reflexivity |]. repeat split.
  - eexists. split; [run; reflexivity |]. repeat split.
Qed.

Lemma bounds_out_of_order_witness :
  exists p,
    predictPerformance reference (floatRequest "athlete" 5) (Some nearbyRuns)
      today
    = PredictionJson p
    /\ predSec p = nan.
Proof.
  destruct (proj2 (bounds_out_of_order reference tabulated_reference))
    as (p & H & _ & _ & Hp & _).
  exists p. now split.
Defined.

End Fit64.

(** * Further properties of the code *)

(** ** The median *)

Lemma sorted_tail (a : R) (l : list R) : sorted (a :: l) -> sorted l.
Proof. inversion 1; subst; [constructor | assumption]. Qed.

Lemma sorted_head_le (a : R) (l : list R) :
  sorted (a :: l) -> forall x, In x l -> a <= x.
Proof.
  revert a. induction l as [| y l IH]; intros a Hs x Hx; [destruct Hx |].
  inversion Hs as [| | a' y' l' Hay Hsl]; subst.
  destruct Hx as [<- | Hx]; [assumption |].
  pose proof (IH y Hsl x Hx). lra.
Qed.

Lemma sorted_perm_eq (l l' : list R) :
  sorted l -> sorted l' -> Permutation l l' -> l = l'.
Proof.
  revert l'. induction l as [| a l IH]; intros l' Hs Hs' Hp.
  - apply Permutation_nil in Hp. now subst.
  - destruct l' as [| a' l'];
      [apply Permutation_sym, Permutation_nil in Hp; discriminate |].
    assert (a = a').
    { assert (H1 : In a (a' :: l'))
        by (apply (Permutation_in _ Hp); now left).
      assert (H2 : In a' (a :: l))
        by (apply (Permutation_in _ (Permutation_sym Hp)); now left).
      destruct H1 as [-> | H1]; [reflexivity |].
      destruct H2 as [-> | H2]; [reflexivity |].
      pose proof (sorted_head_le _ _ Hs' _ H1).
      pose proof (sorted_head_le _ _ Hs _ H2). lra. }
    subst a'. f_equal.
    apply IH; [eapply sorted_tail; eassumption
              | eapply sorted_tail; eassumption
              | now apply Permutation_cons_inv in Hp].
Qed.

Lemma sort_perm_invariant (l l' : list R) :
  Permutation l l' -> sort l = sort l'.
Proof.
  intros H. apply sorted_perm_eq; try apply sort_sorted.
  now rewrite !sort_perm.
Qed.

(** The median of a list of numbers does not depend on their order. *)
Theorem median_order_independent (nums nums' : list R) :
  Permutation nums nums' -> median nums = median nums'.
Proof.
  intros H. unfold median.
  now rewrite (sort_perm_invariant _ _ H), (Permutation_length H).
Qed.

Lemma median_order_independent_witness :
  median [1500 / 5000; 4000 / 5000; 1500 / 5000]
  = median [4000 / 5000; 1500 / 5000; 1500 / 5000].
Proof.
  apply median_order_independent. apply perm_swap.
Defined.

Lemma sorted_nth_le (l : list R) :
  sorted l ->
  forall i j, (i <= j)%nat -> (j < length l)%nat -> nth i l 0 <= nth j l 0.
Proof.
  induction l as [| a l IH]; intros Hs i j Hij Hj; [simpl in Hj; lia |].
  destruct j as [| j].
  - assert (i = 0)%nat as -> by lia. lra.
  - destruct i as [| i].
    + simpl. apply (sorted_head_le _ _ Hs). apply nth_In. simpl in Hj. lia.
    + simpl. apply IH; [eapply sorted_tail; eassumption | lia |].
      simpl in Hj. lia.
Qed.

Lemma filter_length_perm {A : Type} (f : A -> bool) (l l' : list A) :
  Permutation l l' -> length (filter f l) = length (filter f l').
Proof.
  induction 1 as [| x l l' _ IH | x y l | l l' l'' _ IH1 _ IH2]; simpl.
  - reflexivity.
  - destruct (f x); simpl; now rewrite IH.
  - destruct (f x), (f y); reflexivity.
  - now rewrite IH1.
Qed.

Lemma count_below (c : R) (l : list R) :
  sorted l ->
  forall k, (k < length l)%nat -> nth k l 0 <= c ->
            (k + 1 <= length (filter (fun x => leb x c) l))%nat.
Proof.
  induction l as [| a l IH]; intros Hs k Hk Hc; [simpl in Hk; lia |].
  assert (Ha : a <= c).
  { pose proof (sorted_nth_le _ Hs 0 k ltac:(lia) Hk) as H. simpl in H.
    destruct k; simpl in *; lra. }
  simpl. replace (leb a c) with true by (symmetry; now apply leb_true).
  destruct k as [| k]; simpl; [lia |].
  simpl in Hk, Hc.
  pose proof (IH (sorted_tail _ _ Hs) k ltac:(lia) Hc). lia.
Qed.

Lemma count_above (c : R) (l : list R) :
  sorted l ->
  forall k, (k < length l)%nat -> c <= nth k l 0 ->
            (length l - k <= length (filter (fun x => leb c x) l))%nat.
Proof.
  induction l as [| a l IH]; intros Hs k Hk Hc; [simpl in Hk; lia |].
  destruct k as [| k].
  - simpl in Hc. rewrite filter_all; [lia |].
    intros x [<- | Hx]; apply leb_true; [assumption |].
    pose proof (sorted_head_le _ _ Hs x Hx). lra.
  - simpl in Hk, Hc.
    pose proof (IH (sorted_tail _ _ Hs) k ltac:(lia) Hc).
    simpl. destruct (leb c a); simpl; lia.
Qed.

(** The median of a non-empty list splits it in halves: at least half of the
    numbers are not above it and at least half are not below it; and it lies
    in every interval that holds all the numbers. *)
Theorem median_splits_in_halves (nums : list R) :
  nums <> [] ->
  (length nums <= 2 * length (filter (fun x => leb x (median nums)) nums))%nat
  /\ (length nums
      <= 2 * length (filter (fun x => leb (median nums) x) nums))%nat
  /\ (forall lo hi, (forall x, In x nums -> lo <= x <= hi) ->
                    lo <= median nums <= hi).
Proof.
  intros Hne.
  assert (Hn : (0 < length nums)%nat)
    by (destruct nums; [congruence | simpl; lia]).
  pose proof (sort_sorted nums) as Hs.
  pose proof (sort_length nums) as Hl.
  pose proof (Nat.div_mod_eq (length nums) 2) as Hdm.
  pose proof (Nat.mod_upper_bound (length nums) 2 ltac:(lia)) as Hm.
  set (mid := Nat.div (length nums) 2) in *.
  set (arr := sort nums) in *.
  assert (Hmed : (Nat.modulo (length nums) 2 = 1%nat
                  /\ median nums = nth mid arr 0)
                 \/ (Nat.modulo (length nums) 2 = 0%nat /\ (1 <= mid)%nat
                     /\ median nums
                        = (nth (mid - 1) arr 0 + nth mid arr 0) / 2)).
  { unfold median. fold arr. fold mid.
    replace (Nat.eqb (length nums) 0) with false
      by (symmetry; apply Nat.eqb_neq; lia).
    destruct (Nat.eqb (Nat.modulo (length nums) 2) 1) eqn:E.
    - left. apply Nat.eqb_eq in E. now split.
    - right. apply Nat.eqb_neq in E. repeat split; lia. }
  assert (Hcount : forall f, length (filter f nums) = length (filter f arr))
    by (intros f; apply filter_length_perm, Permutation_sym, sort_perm).
  assert (Hin : forall i, (i < length nums)%nat -> In (nth i arr 0) nums)
    by (intros i Hi; apply sort_In, nth_In; fold arr; lia).
  rewrite !Hcount.
  destruct Hmed as [[Hodd ->] | (Heven & Hmid & ->)].
  - pose proof (count_below (nth mid arr 0) arr Hs mid ltac:(lia) ltac:(lra)).
    pose proof (count_above (nth mid arr 0) arr Hs mid ltac:(lia) ltac:(lra)).
    repeat split; try lia; apply (H1 (nth mid arr 0)), Hin; lia.
  - pose proof (sorted_nth_le arr Hs (mid - 1) mid ltac:(lia) ltac:(lia)) as Hab.
    set (a := nth (mid - 1) arr 0) in *. set (b := nth mid arr 0) in *.
    pose proof (count_below ((a + b) / 2) arr Hs (mid - 1) ltac:(lia)
                  ltac:(fold a; lra)).
    pose proof (count_above ((a + b) / 2) arr Hs mid ltac:(lia)
                  ltac:(fold b; lra)).
    assert (Ha : In a nums) by (apply Hin; lia).
    assert (Hb : In b nums) by (apply Hin; lia).
    repeat split; try lia.
    + pose proof (H1 a Ha). pose proof (H1 b Hb). lra.
    + pose proof (H1 a Ha). pose proof (H1 b Hb). lra.
Qed.

Lemma median_splits_in_halves_witness :
  0 <= median [1500 / 5000; 4000 / 5000; 1500 / 5000] <= 1.
Proof.
  apply (proj2 (proj2 (median_splits_in_halves
                         [1500 / 5000; 4000 / 5000; 1500 / 5000]
                         ltac:(discriminate)))).
  intros x [<- | [<- | [<- | []]]]; lra.
Defined.

(** ** The outlier filter keeps a point *)



(** ** What the handler answers *)

Lemma mapNotNull_length {A B : Type} (f : A -> option B) (l : list A) :
  (length (mapNotNull f l) <= length l)%nat.
Proof.
  induction l as [| a l IH]; simpl; [lia |]. destruct (f a); simpl; lia.
Qed.

Lemma floor_bounds (x : R) : IZR (floor x) <= x < IZR (floor x) + 1.
Proof. unfold floor. pose proof (base_Int_part x). lra. Qed.

Lemma round_bounds (x : R) : x - 1 / 2 < IZR (round x) <= x + 1 / 2.
Proof. unfold round. pose proof (floor_bounds (x + 1 / 2)). lra. Qed.

(** The handler answers one of seven errors or a complete prediction. *)
Theorem predictPerformance_answers
  (req : Request) (fetched : option (list (option Activity))) (now : Date) :
  let response := value (predictPerformance req fetched now) in
  response = ErrorJson 401 "Unauthorized"
  \/ response = ErrorJson 400 "Invalid distance_km"
  \/ response = ErrorJson 500 "Server error"
  \/ response = ErrorJson 400 tooFewValid
  \/ response = ErrorJson 400 tooFewClean
  \/ response = ErrorJson 400 tooFewSteady
  \/ response = ErrorJson 500 "Model fit failed"
  \/ (exists (p : Prediction) (acts : list (option Activity)),
        response = PredictionJson p
        /\ fetched = Some acts
        /\ used_points p
           = length (value (outlierFilter
                              (value (pauseFilter (normalize acts)))))
        /\ (MIN_POINTS <= used_points p <= length acts)%nat
        /\ targetKmOf req = Fin (distance_km p)
        /\ 0 < distance_km p).
Proof.
  intros response. unfold response.
  destruct (userId req) as [u |] eqn:Hu;
    [| left; unfold predictPerformance; now rewrite Hu].
  destruct (targetKmOf req) as [targetKm | | |] eqn:Ht;
    try (right; left; unfold predictPerformance; now rewrite Hu, Ht).
  destruct (leb targetKm 0) eqn:Hpos;
    [right; left; unfold predictPerformance; now rewrite Hu, Ht, Hpos |].
  destruct fetched as [acts |];
    [| right; right; left; unfold predictPerformance;
       now rewrite Hu, Ht, Hpos].
  reflect_cmp.
  rewrite (predictPerformance_pipeline _ _ _ u targetKm) by assumption.
  unfold pipeline.
  destruct (Nat.ltb (length (normalize acts)) MIN_POINTS); [tauto |].
  destruct (Nat.ltb (length (value (pauseFilter (normalize acts)))) MIN_POINTS);
    [tauto |].
  destruct (Nat.ltb (length (value (outlierFilter
              (value (pauseFilter (normalize acts)))))) MIN_POINTS) eqn:Hlen;
    [tauto |].
  apply Nat.ltb_ge in Hlen.
  destruct (value (fitPowerLaw now _)) as [fit |]; [| tauto].
  do 7 right. rewrite value_respond by assumption.
  eexists. exists acts. split; [reflexivity |]. cbn [used_points distance_km].
  repeat split; try assumption.
  rewrite value_outlierFilter, value_pauseFilter. unfold normalize.
  etransitivity; [apply filter_length_le |].
  etransitivity; [apply filter_length_le |].
  etransitivity; [apply filter_length_le |].
  apply mapNotNull_length.
Qed.

(** ** The pause filter, without division *)

(** A point passes the pause filter exactly when its elapsed time is absent
    or not positive, or when its moving time is at least 0.8 times its elapsed
    time; a record whose elapsed time is missing or not finite gives a point
    that always passes. *)
Theorem pauseFilter_keeps (pts : list Point) (p : Point) :
  (In p (value (pauseFilter pts))
   <-> In p pts
       /\ match elapsedTime p with
          | None => True
          | Some elapsed =>
              elapsed <= 0 \/ MIN_MOVE_ELAPSED_RATIO * elapsed <= movingTime p
          end)
  /\ (forall a, mapStravaAct (Some a) = Some p ->
        (forall e, a_elapsed_time a = Some e -> isFinite e = false) ->
        value (pauseKeep p) = true).
Proof.
  split.
  - rewrite value_pauseFilter, filter_In.
    assert (H : value (pauseKeep p) = true
                <-> match elapsedTime p with
                    | None => True
                    | Some elapsed =>
                        elapsed <= 0
                        \/ MIN_MOVE_ELAPSED_RATIO * elapsed <= movingTime p
                    end).
    { unfold pauseKeep, MIN_MOVE_ELAPSED_RATIO.
      destruct (elapsedTime p) as [e |]; [| simpl; tauto].
      destruct (leb e 0) eqn:E; reflect_cmp; [simpl; tauto |].
      rewrite value_bind. cbn [value divide ret fst]. rewrite geb_true.
      split.
      - intros Hr. right.
        apply (Rmult_le_compat_r e) in Hr; [| lra].
        unfold Rdiv in Hr. rewrite Rmult_assoc, Rinv_l in Hr by lra. lra.
      - intros [Hn | Hr]; [lra |].
        apply (Rmult_le_reg_r e); [lra |].
        unfold Rdiv. rewrite Rmult_assoc, Rinv_l by lra. lra. }
    now rewrite H.
  - intros a Ha He. apply mapStravaAct_Some in Ha as (a' & E & _ & _ & _ & _ & Hel).
    injection E as <-. unfold pauseKeep. rewrite Hel.
    destruct (a_elapsed_time a) as [[e | | |] |]; try reflexivity.
    specialize (He (Fin e) eq_refl). discriminate.
Qed.

Lemma pauseFilter_keeps_witness :
  let paused := mkPoint 5000 1500 (Some 3000) 0 in
  ~ In paused (value (pauseFilter [paused; mkPoint 5000 1500 None 0])).
Proof.
  intros paused H.
  apply (proj1 (pauseFilter_keeps _ _)) in H as [_ H].
  cbn [paused elapsedTime movingTime] in H. unfold MIN_MOVE_ELAPSED_RATIO in H.
  lra.
Defined.

(** ** Only the ages of the runs matter *)

Lemma recencyWeight_shift (delta : Z) (start now : Date) :
  recencyWeight (start + delta) (now + delta) = recencyWeight start now.
Proof.
  unfold recencyWeight, getTime. rewrite !plus_IZR.
  now replace (IZR now + IZR delta - (IZR start + IZR delta))
    with (IZR now - IZR start) by ring.
Qed.

Lemma fitPowerLaw_shift (delta : Z) (now : Date) (pts : list Point) :
  fitPowerLaw (now + delta) (map (shiftPoint delta) pts) = fitPowerLaw now pts.
Proof.
  unfold fitPowerLaw. rewrite length_map, !map_map.
  cbn [shiftPoint redate distance movingTime startDate].
  now rewrite (map_ext _ (fun p => recencyWeight (startDate p) now))
    by (intros p; apply recencyWeight_shift).
Qed.

Lemma normalize_shift (delta : Z) (acts : list (option Activity)) :
  normalize (map (option_map (shiftActivity delta)) acts)
  = map (shiftPoint delta) (normalize acts).
Proof.
  unfold normalize.
  assert (H : mapNotNull mapStravaAct
                (map (option_map (shiftActivity delta)) acts)
              = map (shiftPoint delta) (mapNotNull mapStravaAct acts)).
  { induction acts as [| a acts IH]; [reflexivity |].
    cbn [map mapNotNull]. rewrite IH.
    destruct a as [a |]; [| reflexivity].
    unfold mapStravaAct. cbn [option_map shiftActivity a_type a_distance
                               a_moving_time a_elapsed_time a_start_date].
    destruct (isRun (a_type a)); [| reflexivity]. cbn [negb].
    destruct (a_distance a); try reflexivity.
    destruct (a_moving_time a); try reflexivity.
    destruct (a_start_date a); reflexivity. }
  rewrite H, filter_map_swap. reflexivity.
Qed.

Lemma pauseFilter_shift (delta : Z) (pts : list Point) :
  value (pauseFilter (map (shiftPoint delta) pts))
  = map (shiftPoint delta) (value (pauseFilter pts)).
Proof. rewrite !value_pauseFilter, filter_map_swap. reflexivity. Qed.

Lemma outlierFilter_shift (delta : Z) (pts : list Point) :
  value (outlierFilter (map (shiftPoint delta) pts))
  = map (shiftPoint delta) (value (outlierFilter pts)).
Proof.
  rewrite !value_outlierFilter, filter_map_swap.
  unfold medianPace. rewrite map_map. reflexivity.
Qed.

(** The response depends on the dates only through the ages of the runs:
    moving every start date and the clock by the same amount changes
    nothing. *)
Theorem predictPerformance_shift
  (req : Request) (acts : list (option Activity)) (now : Date) (delta : Z) :
  value (predictPerformance req
           (Some (map (option_map (shiftActivity delta)) acts)) (now + delta))
  = value (predictPerformance req (Some acts) now).
Proof.
  destruct (userId req) as [u |] eqn:Hu;
    [| unfold predictPerformance; now rewrite Hu].
  destruct (targetKmOf req) as [targetKm | | |] eqn:Ht;
    try (unfold predictPerformance; now rewrite Hu, Ht).
  destruct (leb targetKm 0) eqn:Hpos;
    [unfold predictPerformance; now rewrite Hu, Ht, Hpos |].
  reflect_cmp.
  rewrite !(predictPerformance_pipeline _ _ _ u targetKm) by assumption.
  unfold pipeline.
  rewrite normalize_shift, pauseFilter_shift, outlierFilter_shift,
    fitPowerLaw_shift, !length_map.
  reflexivity.
Qed.

(** ** Clock times and paces as text *)

Lemma toString_parseZ (z : Z) : parseZ (toString z) = Some z.
Proof.
  unfold parseZ, toString. rewrite NilZero.isi.
  - simpl. now rewrite DecimalZ.of_to.
  - destruct z; simpl; intros H; try discriminate.
    injection H. apply DecimalPos.Unsigned.to_uint_nonnil.
  - destruct z; simpl; intros H; try discriminate.
    injection H. apply DecimalPos.Unsigned.to_uint_nonnil.
Qed.

Lemma noColon_uint (d : Decimal.uint) : noColon (NilEmpty.string_of_uint d) = true.
Proof. induction d; simpl; auto. Qed.

Lemma toString_noColon (z : Z) : noColon (toString z) = true.
Proof.
  unfold toString.
  destruct (Z.to_int z) as [d | d]; simpl;
    destruct d; simpl; auto using noColon_uint.
Qed.

Lemma padStart2_noColon (s : string) : noColon s = true -> noColon (padStart2 s) = true.
Proof.
  unfold padStart2. destruct s as [| c [| c' s]]; simpl; auto.
Qed.

Lemma fields_noColon (s : string) : noColon s = true -> fields s = [s].
Proof.
  induction s as [| c s IH]; simpl; [reflexivity |].
  intros H. apply andb_true_iff in H as [Hc Hs].
  apply negb_true_iff in Hc. rewrite Hc, (IH Hs). reflexivity.
Qed.

Lemma fields_colon (s t : string) :
  noColon s = true -> fields (s ++ ":" ++ t) = s :: fields t.
Proof.
  induction s as [| c s IH]; [reflexivity |].
  intros H. cbn [noColon] in H. apply andb_true_iff in H as [Hc Hs].
  apply negb_true_iff in Hc.
  change (String c s ++ ":" ++ t)%string with (String c (s ++ ":" ++ t))%string.
  cbn [fields]. rewrite Hc, (IH Hs). reflexivity.
Qed.

Lemma two_digits_below_60 :
  forallb (fun n => match parseZ (padStart2 (toString n)) with
                    | Some n' => Z.eqb n n'
                    | None => false
                    end)
          (map Z.of_nat (seq 0 60)) = true.
Proof. vm_compute. reflexivity. Qed.

Lemma padStart2_parseZ (n : Z) :
  (0 <= n < 60)%Z -> parseZ (padStart2 (toString n)) = Some n.
Proof.
  intros H. pose proof two_digits_below_60 as Hall.
  rewrite forallb_forall in Hall.
  specialize (Hall n).
  destruct (parseZ (padStart2 (toString n))) as [n' |].
  - f_equal. symmetry. apply Z.eqb_eq. apply Hall.
    apply in_map_iff. exists (Z.to_nat n). split; [lia |].
    apply in_seq. lia.
  - assert (false = true); [| discriminate].
    apply Hall. apply in_map_iff. exists (Z.to_nat n). split; [lia |].
    apply in_seq. lia.
Qed.

Lemma formatHHMMSS_parseClock (x : R) :
  parseClock (formatHHMMSS x) = Some (Z.max 0 (round x)).
Proof.
  unfold formatHHMMSS. set (sec := Z.max 0 (round x)).
  assert (Hsec : (0 <= sec)%Z) by lia.
  rewrite !Z.rem_mod_nonneg by lia.
  assert (Hs : (0 <= sec mod 60 < 60)%Z) by (apply Z.mod_pos_bound; lia).
  assert (Hm : (0 <= sec mod 3600 / 60 < 60)%Z).
  { pose proof (Z.mod_pos_bound sec 3600 ltac:(lia)).
    split; [apply Z.div_pos; lia | apply Z.div_lt_upper_bound; lia]. }
  assert (Hsum : (3600 * (sec / 3600) + 60 * (sec mod 3600 / 60) + sec mod 60
                  = sec)%Z).
  { pose proof (Z.div_mod sec 3600 ltac:(lia)).
    pose proof (Z.div_mod (sec mod 3600) 60 ltac:(lia)).
    assert ((sec mod 3600) mod 60 = sec mod 60)%Z.
    { symmetry. rewrite (Z.div_mod sec 3600 ltac:(lia)) at 1.
      replace (3600 * (sec / 3600) + sec mod 3600)%Z
        with (sec mod 3600 + (60 * (sec / 3600)) * 60)%Z by ring.
      apply Z.mod_add. lia. }
    lia. }
  unfold parseClock.
  destruct (Z.eqb (sec / 3600) 0) eqn:Eh.
  - apply Z.eqb_eq in Eh.
    rewrite fields_colon by apply toString_noColon.
    rewrite fields_noColon by apply padStart2_noColon, toString_noColon.
    cbn [map]. rewrite toString_parseZ, padStart2_parseZ by assumption.
    f_equal. lia.
  - rewrite fields_colon by apply toString_noColon.
    rewrite fields_colon by apply padStart2_noColon, toString_noColon.
    rewrite fields_noColon by apply padStart2_noColon, toString_noColon.
    cbn [map]. rewrite toString_parseZ, !padStart2_parseZ by assumption.
    f_equal. lia.
Qed.

(** A clock time keeps the whole seconds and nothing else: two durations
    print alike exactly when they round to the same whole number of seconds,
    a negative one counting as zero. *)
Theorem formatHHMMSS_injective (x y : R) :
  formatHHMMSS x = formatHHMMSS y <-> Z.max 0 (round x) = Z.max 0 (round y).
Proof.
  split.
  - intros H. pose proof (formatHHMMSS_parseClock x) as Hx.
    rewrite H, formatHHMMSS_parseClock in Hx. now injection Hx.
  - intros H. unfold formatHHMMSS. now rewrite H.
Qed.



(** ** Who the user is *)

Lemma truthyField_Some (f : option jsvalue) (s : string) :
  truthyField f = Some s <-> nonEmpty f s.
Proof.
  unfold truthyField, truthyString, nonEmpty.
  destruct f as [[t |] |]; try (split; [discriminate | intros [H _]; discriminate]).
  destruct (String.eqb t "") eqn:E.
  - apply String.eqb_eq in E. subst t. split; [discriminate |].
    intros [H Hs]. injection H as <-. congruence.
  - apply String.eqb_neq in E. split.
    + intros H. injection H as <-. now split.
    + intros [H _]. now injection H as <-.
Qed.

Lemma truthyField_None (f : option jsvalue) :
  truthyField f = None <-> forall s, ~ nonEmpty f s.
Proof.
  split.
  - intros H s Hs. apply truthyField_Some in Hs. congruence.
  - intros H. destruct (truthyField f) as [s |] eqn:E; [| reflexivity].
    apply truthyField_Some in E. now apply H in E.
Qed.

Lemma getUserId_Some (who : Identity) (s : string) :
  getUserId who = Some s <->
  nonEmpty (req_user_id who) s
  \/ ((forall t, ~ nonEmpty (req_user_id who) t)
      /\ nonEmpty (req_session_userId who) s)
  \/ ((forall t, ~ nonEmpty (req_user_id who) t)
      /\ (forall t, ~ nonEmpty (req_session_userId who) t)
      /\ nonEmpty (Some (req_header who)) s).
Proof.
  unfold getUserId, orElse.
  change (truthyString (req_header who))
    with (truthyField (Some (req_header who))).
  rewrite <- !truthyField_None, <- !truthyField_Some.
  destruct (truthyField (req_user_id who)) as [s1 |];
    [split; [auto | intros [H | [[H _] | [H _]]]; congruence] |].
  destruct (truthyField (req_session_userId who)) as [s2 |];
    [split; [auto | intros [H | [[_ H] | [_ [H _]]]]; congruence] |].
  destruct (truthyField (Some (req_header who))) as [s3 |];
    split; auto; intros [H | [[_ H] | [_ [_ H]]]]; congruence.
Qed.

Lemma getUserId_None (who : Identity) :
  getUserId who = None <->
  (forall t, ~ nonEmpty (req_user_id who) t)
  /\ (forall t, ~ nonEmpty (req_session_userId who) t)
  /\ (forall t, ~ nonEmpty (Some (req_header who)) t).
Proof.
  unfold getUserId, orElse.
  change (truthyString (req_header who))
    with (truthyField (Some (req_header who))).
  rewrite <- !truthyField_None.
  destruct (truthyField (req_user_id who));
    [split; [discriminate | intros [H _]; discriminate] |].
  destruct (truthyField (req_session_userId who));
    [split; [discriminate | intros [_ [H _]]; discriminate] |].
  destruct (truthyField (Some (req_header who)));
    [split; [discriminate | intros [_ [_ H]]; discriminate] |].
  tauto.
Qed.

(** [getUserId] returns the first of [req.user.id], [req.session.userId] and
    the [x-user-id] header that is a non-empty string, and null when none is:
    it never returns the empty string, and an empty header is no identity. *)
Theorem getUserId_first_non_empty (who : Identity) :
  getUserId who <> Some EmptyString
  /\ (forall s, getUserId who = Some s <->
        nonEmpty (req_user_id who) s
        \/ ((forall t, ~ nonEmpty (req_user_id who) t)
            /\ nonEmpty (req_session_userId who) s)
        \/ ((forall t, ~ nonEmpty (req_user_id who) t)
            /\ (forall t, ~ nonEmpty (req_session_userId who) t)
            /\ nonEmpty (Some (req_header who)) s))
  /\ (getUserId who = None <->
        (forall t, ~ nonEmpty (req_user_id who) t)
        /\ (forall t, ~ nonEmpty (req_session_userId who) t)
        /\ (forall t, ~ nonEmpty (Some (req_header who)) t)).
Proof.
  split; [| split; [apply getUserId_Some | apply getUserId_None]].
  intros H. apply getUserId_Some in H.
  destruct H as [[_ H] | [[_ [_ H]] | [_ [_ [_ H]]]]]; now apply H.
Qed.

Lemma getUserId_first_non_empty_witness :
  getUserId {| req_user_id := Some (JString "");
               req_session_userId := None;
               req_header := JString "athlete" |} = Some "athlete"%string.
Proof.
  apply (proj1 (proj2 (getUserId_first_non_empty _))).
  right. right. repeat split; try discriminate.
  - intros t [H Ht]. injection H as <-. now apply Ht.
  - intros t [H _]. discriminate.
Defined.

Lemma predictPerformance_401
  (req : Request) (fetched : option (list (option Activity))) (now : Date) :
  value (predictPerformance req fetched now) = ErrorJson 401 "Unauthorized"
  <-> userId req = None.
Proof.
  split; [| intros H; unfold predictPerformance; now rewrite H].
  destruct (userId req) as [u |] eqn:Hu; [| reflexivity].
  intros H. exfalso. revert H.
  destruct (targetKmOf req) as [targetKm | | |] eqn:Ht;
    try (unfold predictPerformance; rewrite Hu, Ht; discriminate).
  destruct (leb targetKm 0) eqn:Hpos;
    [unfold predictPerformance; rewrite Hu, Ht, Hpos; discriminate |].
  destruct fetched as [acts |];
    [| unfold predictPerformance; rewrite Hu, Ht, Hpos; discriminate].
  reflect_cmp.
  rewrite (predictPerformance_pipeline _ _ _ u targetKm) by assumption.
  unfold pipeline.
  repeat (match goal with
          | |- context [if ?c then _ else _] => destruct c; [discriminate |]
          end).
  destruct (value (fitPowerLaw now _)); [| discriminate].
  rewrite value_respond by assumption. discriminate.
Qed.

(** The handler answers 401 exactly when the request carries no non-empty
    identity, whatever the target and the activities. *)
Theorem predictPerformance_unauthorized
  (who : Identity) (q : option num)
  (fetched : option (list (option Activity))) (now : Date) :
  value (predictPerformance (requestOf who q) fetched now)
  = ErrorJson 401 "Unauthorized"
  <-> (forall t, ~ nonEmpty (req_user_id who) t)
      /\ (forall t, ~ nonEmpty (req_session_userId who) t)
      /\ (forall t, ~ nonEmpty (Some (req_header who)) t).
Proof.
  rewrite predictPerformance_401. apply getUserId_None.
Qed.

(** ** Fresh tokens *)

Lemma findUnique_Some (table : list User) (id : string) (u : User) :
  findUnique table id = Some u -> user_id u = id /\ In u table.
Proof.
  unfold findUnique. intros H. apply find_some in H as [Hin Hid].
  apply String.eqb_eq in Hid. now split.
Qed.

Lemma findUnique_map (table : list User) (id id' : string)
  (change : User -> User) :
  (forall u, user_id (change u) = user_id u) ->
  findUnique
    (map (fun u => if String.eqb (user_id u) id then change u else u) table)
    id'
  = if String.eqb id' id then option_map change (findUnique table id')
    else findUnique table id'.
Proof.
  intros Hid. unfold findUnique.
  induction table as [| u table IH]; simpl; [now destruct (String.eqb id' id) |].
  destruct (String.eqb (user_id u) id) eqn:E1.
  - apply String.eqb_eq in E1. rewrite Hid, E1.
    destruct (String.eqb id id') eqn:E2.
    + apply String.eqb_eq in E2. subst id'. now rewrite String.eqb_refl.
    + rewrite IH. reflexivity.
  - destruct (String.eqb (user_id u) id') eqn:E2.
    + apply String.eqb_eq in E2. subst id'. now rewrite E1.
    + apply IH.
Qed.

Lemma refreshedColumns_id (user : User) (data : TokenData) (row : User) :
  user_id (refreshedColumns user data row) = user_id row.
Proof. reflexivity. Qed.

(** The two ways through [ensureFreshTokenForUserId] for a user of the
    table. *)
Lemma ensureFreshTokenForUserId_valid
  (strava : string -> Outcome TokenData) (nowMs : Z) (id : string) (w : World)
  (user : User) :
  findUnique (users w) id = Some user ->
  (60 < expiresAt user - nowMs / 1000)%Z ->
  ensureFreshTokenForUserId strava nowMs id w = (Returned (accessToken user), w).
Proof.
  intros Hfind Hexp. unfold ensureFreshTokenForUserId. rewrite Hfind.
  apply Z.ltb_lt in Hexp. now rewrite Hexp.
Qed.

Lemma ensureFreshTokenForUserId_refresh
  (strava : string -> Outcome TokenData) (nowMs : Z) (id : string) (w : World)
  (user : User) (data : TokenData) :
  findUnique (users w) id = Some user ->
  (expiresAt user - nowMs / 1000 <= 60)%Z ->
  strava (refreshToken user) = Returned data ->
  ensureFreshTokenForUserId strava nowMs id w
  = (Returned (access_token data),
     {| users := map (fun u => if String.eqb (user_id u) id
                               then refreshedColumns user data u else u)
                     (users w);
        refreshCalls := refreshCalls w ++ [refreshToken user] |}).
Proof.
  intros Hfind Hexp Hs. unfold ensureFreshTokenForUserId. rewrite Hfind.
  apply Z.ltb_ge in Hexp. rewrite Hexp.
  unfold refreshAccessToken. rewrite Hs. cbn [users refreshCalls].
  destruct (findUnique_Some _ _ _ Hfind) as [Hid _].
  unfold update. rewrite Hid, Hfind. reflexivity.
Qed.

(** A token that [ensureFreshTokenForUserId] returns is the access token that
    the table holds for that user afterwards, and the rows of the other users
    are as they were. *)
Theorem ensureFreshTokenForUserId_stored
  (strava : string -> Outcome TokenData) (nowMs : Z) (id : string)
  (w w' : World) (token : string) :
  ensureFreshTokenForUserId strava nowMs id w = (Returned token, w') ->
  (exists row, findUnique (users w') id = Some row /\ accessToken row = token)
  /\ (forall id', id' <> id ->
        findUnique (users w') id' = findUnique (users w) id').
Proof.
  intros H.
  destruct (findUnique (users w) id) as [user |] eqn:Hfind;
    [| unfold ensureFreshTokenForUserId in H; rewrite Hfind in H; discriminate].
  destruct (Z.ltb 60 (expiresAt user - nowMs / 1000)) eqn:Hexp.
  - apply Z.ltb_lt in Hexp.
    rewrite (ensureFreshTokenForUserId_valid _ _ _ _ user) in H by assumption.
    injection H as <- <-. split; [now exists user | reflexivity].
  - apply Z.ltb_ge in Hexp.
    destruct (strava (refreshToken user)) as [data | message] eqn:Hs.
    + rewrite (ensureFreshTokenForUserId_refresh _ _ _ _ user data) in H
        by assumption.
      injection H as <- <-. cbn [users]. split.
      * rewrite findUnique_map by apply refreshedColumns_id.
        rewrite String.eqb_refl, Hfind. now eexists.
      * intros id' Hne. rewrite findUnique_map by apply refreshedColumns_id.
        apply String.eqb_neq in Hne. now rewrite Hne.
    + unfold ensureFreshTokenForUserId in H. rewrite Hfind in H.
      apply Z.ltb_ge in Hexp. rewrite Hexp in H.
      unfold refreshAccessToken in H. rewrite Hs in H. discriminate.
Qed.

Lemma ensureFreshTokenForUserId_stored_witness :
  let w := {| users := [mkUser "u1" "old" "r0" 1000; mkUser "u2" "t2" "r2" 9000];
              refreshCalls := [] |} in
  let strava := fun _ : string => Returned (mkTokenData "new" None 5000) in
  findUnique (users (snd (ensureFreshTokenForUserId strava 2000000 "u1" w)))
    "u2"
  = findUnique (users w) "u2".
Proof.
  intros w strava.
  apply (proj2 (ensureFreshTokenForUserId_stored strava 2000000 "u1" w
                  (snd (ensureFreshTokenForUserId strava 2000000 "u1" w))
                  "new" eq_refl)).
  discriminate.
Defined.

(** After a refresh, the next call for the same user returns the new token
    without calling Strava as long as that token has more than 60 s to live,
    and otherwise posts the refresh token that the first answer brought, or
    the old one when it brought none. *)
Theorem ensureFreshTokenForUserId_next_call
  (strava : string -> Outcome TokenData) (nowMs nowMs' : Z) (id : string)
  (w : World) (user : User) (data : TokenData) :
  findUnique (users w) id = Some user ->
  (expiresAt user - nowMs / 1000 <= 60)%Z ->
  strava (refreshToken user) = Returned data ->
  let w1 := snd (ensureFreshTokenForUserId strava nowMs id w) in
  let rotated := match refresh_token data with
                 | Some token => token
                 | None => refreshToken user
                 end in
  fst (ensureFreshTokenForUserId strava nowMs id w)
  = Returned (access_token data)
  /\ refreshCalls w1 = refreshCalls w ++ [refreshToken user]
  /\ ((60 < expires_at data - nowMs' / 1000)%Z ->
      ensureFreshTokenForUserId strava nowMs' id w1
      = (Returned (access_token data), w1))
  /\ ((expires_at data - nowMs' / 1000 <= 60)%Z ->
      refreshCalls (snd (ensureFreshTokenForUserId strava nowMs' id w1))
      = refreshCalls w ++ [refreshToken user; rotated]).
Proof.
  intros Hfind Hexp Hs w1 rotated. unfold w1.
  rewrite (ensureFreshTokenForUserId_refresh _ _ _ _ user data) by assumption.
  cbn [fst snd refreshCalls].
  set (w2 := {| users := _; refreshCalls := _ |}).
  assert (Hfind2 : findUnique (users w2) id
                   = Some (refreshedColumns user data user)).
  { unfold w2. cbn [users].
    rewrite findUnique_map by apply refreshedColumns_id.
    now rewrite String.eqb_refl, Hfind. }
  split; [reflexivity |]. split; [reflexivity |]. split.
  - intros Hlive.
    now rewrite (ensureFreshTokenForUserId_valid _ _ _ _ _ Hfind2).
  - intros Hdead. unfold ensureFreshTokenForUserId. rewrite Hfind2.
    change (expiresAt (refreshedColumns user data user))
      with (expires_at data).
    change (refreshToken (refreshedColumns user data user)) with rotated.
    apply Z.ltb_ge in Hdead. rewrite Hdead.
    unfold refreshAccessToken.
    assert (Hcalls : refreshCalls w2 ++ [rotated]
                     = refreshCalls w ++ [refreshToken user; rotated])
      by (unfold w2; cbn [refreshCalls]; now rewrite <- app_assoc).
    destruct (strava rotated) as [data' | message];
      [| cbn [snd refreshCalls]; exact Hcalls].
    cbn [users refreshCalls].
    destruct (update _ _ _) as [[row | message] table];
      cbn [snd refreshCalls]; exact Hcalls.
Qed.

Lemma ensureFreshTokenForUserId_next_call_witness :
  let w := {| users := [mkUser "u1" "old" "r0" 1000]; refreshCalls := [] |} in
  let strava := fun _ : string => Returned (mkTokenData "new" (Some "r1"%string) 5000) in
  let w1 := snd (ensureFreshTokenForUserId strava 2000000 "u1" w) in
  ensureFreshTokenForUserId strava 2000000 "u1" w1 = (Returned "new"%string, w1)
  /\ refreshCalls (snd (ensureFreshTokenForUserId strava 6000000 "u1" w1))
     = ["r0"; "r1"]%string.
Proof.
  intros w strava w1.
  destruct (ensureFreshTokenForUserId_next_call strava 2000000 2000000 "u1" w
              (mkUser "u1" "old" "r0" 1000) (mkTokenData "new" (Some "r1"%string) 5000)
              eq_refl ltac:(vm_compute; discriminate) eq_refl)
    as (_ & _ & H1 & _).
  destruct (ensureFreshTokenForUserId_next_call strava 2000000 6000000 "u1" w
              (mkUser "u1" "old" "r0" 1000) (mkTokenData "new" (Some "r1"%string) 5000)
              eq_refl ltac:(vm_compute; discriminate) eq_refl)
    as (_ & _ & _ & H2).
  split; [apply H1; vm_compute; reflexivity
         | apply H2; vm_compute; discriminate].
Defined.

(** The two copies of the refresh logic agree: for a user that the table
    holds, [ensureFreshTokenForUserId] does what [ensureFreshToken] does on
    the row; for an unknown user it throws and leaves the state alone. *)
Theorem ensureFreshToken_copies_agree
  (strava : string -> Outcome TokenData) (nowMs : Z) (id : string) (w : World) :
  match findUnique (users w) id with
  | Some user =>
      ensureFreshTokenForUserId strava nowMs id w
      = ensureFreshToken strava nowMs user w
  | None =>
      ensureFreshTokenForUserId strava nowMs id w
      = (Thrown "User not found", w)
  end.
Proof.
  destruct (findUnique (users w) id) as [user |] eqn:Hfind;
    [| unfold ensureFreshTokenForUserId; now rewrite Hfind].
  unfold ensureFreshTokenForUserId, ensureFreshToken. rewrite Hfind.
  destruct (Z.ltb 60 (expiresAt user - nowMs / 1000)); [reflexivity |].
  unfold refreshAccessToken.
  destruct (strava (refreshToken user)) as [data | message]; [| reflexivity].
  cbn [users refreshCalls].
  destruct (findUnique_Some _ _ _ Hfind) as [Hid _].
  unfold update. rewrite Hid, Hfind. reflexivity.
Qed.

(** ** The weather proxy *)

Lemma toHour_pop (h : RawHour) :
  exists r, pop (toHour h) = Fin r /\ 0 <= r <= 1.
Proof.
  unfold toHour. cbn [pop].
  destruct (h_chance_of_rain h) as [c | | |]; cbn [orZero].
  - destruct (eqb c 0); cbn [divideBy Math_min Math_max];
      eexists; (split; [reflexivity |]).
    + replace (0 / 100) with 0 by lra.
      rewrite Rmin_right, Rmax_left; lra.
    + unfold Rmin, Rmax.
      destruct (Rle_dec 1 (c / 100)); destruct (Rle_dec 0 _); lra.
  - cbn [divideBy Math_min Math_max]. eexists. split; [reflexivity |].
    rewrite Rmax_right; lra.
  - cbn [divideBy Math_min Math_max]. eexists. split; [reflexivity |]. lra.
  - cbn [divideBy Math_min Math_max]. eexists. split; [reflexivity |].
    replace (0 / 100) with 0 by lra.
    rewrite Rmin_right, Rmax_left; lra.
Qed.

(** In every forecast that the route returns there is one hour for each hour
    of the upstream answer, its chance of rain is a number between 0 and 1
    whatever the upstream sent, and it carries no air-quality index. *)
Theorem weather_hours
  (lat lon : num) (key : option string) (upstream : Upstream)
  (hours : list Hour) :
  weather lat lon key upstream = WeatherJson hours ->
  (exists hoursRaw, upstream = Forecast hoursRaw
                    /\ length hours = length hoursRaw)
  /\ (forall h, In h hours ->
        (exists r, pop h = Fin r /\ 0 <= r <= 1) /\ aqi h = None).
Proof.
  unfold weather.
  destruct (falsy lat || falsy lon); [discriminate |].
  destruct key as [k |]; [| discriminate].
  destruct (String.eqb k ""); [discriminate |].
  destruct upstream as [message | status | hoursRaw]; try discriminate.
  intros H. injection H as <-. split.
  - exists hoursRaw. now rewrite length_map.
  - intros h Hh. apply in_map_iff in Hh as [raw [<- _]].
    split; [apply toHour_pop | reflexivity].
Qed.

Lemma weather_hours_witness :
  let h := toHour (mkRawHour (Fin 1700000000) (Fin 12) (Fin 60) (Fin 10)
                     PInf None) in
  (exists r, pop h = Fin r /\ 0 <= r <= 1) /\ aqi h = None.
Proof.
  apply (proj2 (weather_hours (Fin 51.5) (Fin 4.9) (Some "key"%string)
                  (Forecast [mkRawHour (Fin 1700000000) (Fin 12) (Fin 60)
                               (Fin 10) PInf None]) _
                  ltac:(unfold weather, falsy; decide_cmp; reflexivity))).
  left. reflexivity.
Defined.

(** The route refuses with 400 "lat & lon required" exactly the requests
    whose latitude or longitude is zero or not a number: a place on the
    equator or on the prime meridian gets no forecast. *)
Theorem weather_coordinates
  (lat lon : num) (key : option string) (upstream : Upstream) :
  weather lat lon key upstream = WeatherError 400 "lat & lon required"
  <-> (lat = NaN \/ lat = Fin 0 \/ lon = NaN \/ lon = Fin 0).
Proof.
  assert (Hf : forall n, falsy n = true <-> n = NaN \/ n = Fin 0).
  { intros [r | | |]; simpl; try (split; [discriminate | intros [H | H]; discriminate]).
    - rewrite eqb_true. split; [intros ->; now right |].
      intros [H | H]; [discriminate | now injection H].
    - split; auto. }
  unfold weather. destruct (falsy lat || falsy lon) eqn:E.
  - apply orb_true_iff in E. rewrite !Hf in E. split; [tauto | reflexivity].
  - apply orb_false_iff in E as [E1 E2]. split.
    + destruct key as [k |]; [| discriminate].
      destruct (String.eqb k ""); [discriminate |].
      destruct upstream; discriminate.
    + intros H. exfalso.
      assert (falsy lat = true \/ falsy lon = true) as [H' | H']
        by (rewrite !Hf; tauto); congruence.
Qed.

(** ** The run planner *)

Lemma round_le (x : R) (z : Z) : x <= IZR z -> (round x <= z)%Z.
Proof.
  intros H. pose proof (round_bounds x).
  assert (round x < z + 1)%Z by (apply lt_IZR; rewrite plus_IZR; lra). lia.
Qed.

Lemma round_ge (x : R) (z : Z) : IZR z <= x -> (z <= round x)%Z.
Proof.
  intros H. pose proof (round_bounds x).
  assert (z - 1 < round x)%Z by (apply lt_IZR; rewrite minus_IZR; lra). lia.
Qed.

Lemma clamp_bounds (x : R) : 0 <= Rmax 0 (Rmin 1 x) <= 1.
Proof.
  unfold Rmax, Rmin.
  destruct (Rle_dec 1 x); destruct (Rle_dec 0 _); lra.
Qed.

(** The score of an hour is a whole number from 0 to 100; and an hour of the
    forecast of the weather route, which carries no air-quality index, never
    scores above 96 when its wind and its UV index are not negative. *)
Theorem scoreHour_range (h : PlannerHour) :
  (0 <= scoreHour h <= 100)%Z
  /\ (forall raw : RawHour,
        h = received (toHour raw) ->
        0 <= numberOf (p_wind_kph h) -> 0 <= numberOf (p_uv h) ->
        (scoreHour h <= 96)%Z).
Proof.
  split.
  - unfold scoreHour. pose proof (clamp_bounds (penaltyOf h)).
    split; [apply round_ge | apply round_le]; lra.
  - intros raw -> Hw Hu. unfold scoreHour. apply round_le.
    assert (Hp : 0.04 <= penaltyOf (received (toHour raw))).
    { unfold penaltyOf.
      destruct (toHour_pop raw) as [r [Er Hr]].
      assert (Epop : numberOf (p_pop (received (toHour raw))) = r)
        by (cbn [received p_pop]; now rewrite Er).
      rewrite Epop.
      change (p_aqi (received (toHour raw))) with (@None R).
      set (t := numberOf (p_temp_c _)). set (hu := numberOf (p_humidity _)).
      set (w := numberOf (p_wind_kph _)) in *. set (u := numberOf (p_uv _)) in *.
      assert (0 <= Rmin 1 (Rabs (t - 11) / 15)).
      { apply Rmin_glb; [lra |]. pose proof (Rabs_pos (t - 11)). lra. }
      assert (0 <= Rmax 0 ((hu - 50) / 50)) by apply Rmax_l.
      assert (0 <= Rmin 1 (w / 30)) by (apply Rmin_glb; lra).
      assert (0 <= Rmin 1 r) by (apply Rmin_glb; lra).
      assert (0 <= Rmin 1 (u / 8)) by (apply Rmin_glb; lra).
      lra. }
    assert (0.04 <= Rmax 0 (Rmin 1 (penaltyOf (received (toHour raw))))).
    { unfold Rmax, Rmin.
      destruct (Rle_dec 1 _); destruct (Rle_dec 0 _); lra. }
    lra.
Qed.

Lemma scoreHour_range_witness :
  (scoreHour (received (toHour (mkRawHour (Fin 1700000000) (Fin 11) (Fin 40)
                                  (Fin 0) (Fin 0) None))) <= 96)%Z.
Proof.
  apply (proj2 (scoreHour_range _) _ eq_refl); simpl; lra.
Defined.

Lemma insertByScore_perm (x : PlannerHour * Z) (l : list (PlannerHour * Z)) :
  Permutation (insertByScore x l) (x :: l).
Proof.
  induction l as [| y l IH]; simpl; [reflexivity |].
  destruct (snd x <? snd y)%Z; [| reflexivity].
  rewrite IH. apply perm_swap.
Qed.

Lemma sortByScore_perm (l : list (PlannerHour * Z)) :
  Permutation (sortByScore l) l.
Proof.
  induction l as [| x l IH]; simpl; [reflexivity |].
  now rewrite insertByScore_perm, IH.
Qed.

Lemma insertByScore_descending (x : PlannerHour * Z) (l : list (PlannerHour * Z)) :
  descending l -> descending (insertByScore x l).
Proof.
  induction 1 as [| y | y z l Hzy Hd IH]; simpl.
  - constructor.
  - destruct (snd x <? snd y)%Z eqn:E.
    + apply Z.ltb_lt in E. apply descending_cons; [lia | constructor].
    + apply Z.ltb_ge in E. apply descending_cons; [lia | constructor].
  - destruct (snd x <? snd y)%Z eqn:E.
    + apply Z.ltb_lt in E. simpl in IH.
      destruct (snd x <? snd z)%Z eqn:E'.
      * apply descending_cons; assumption.
      * apply Z.ltb_ge in E'. apply descending_cons; [lia | exact IH].
    + apply Z.ltb_ge in E. apply descending_cons; [lia |].
      now apply descending_cons.
Qed.

Lemma sortByScore_descending (l : list (PlannerHour * Z)) :
  descending (sortByScore l).
Proof.
  induction l as [| x l IH]; simpl;
    [constructor | now apply insertByScore_descending].
Qed.

Lemma descending_head (x : PlannerHour * Z) (l : list (PlannerHour * Z)) :
  descending (x :: l) -> forall y, In y l -> (snd y <= snd x)%Z.
Proof.
  revert x. induction l as [| z l IH]; intros x Hd y Hy; [destruct Hy |].
  inversion Hd as [| | x' z' l' Hzx Hd']; subst.
  destruct Hy as [<- | Hy]; [assumption |].
  pose proof (IH z Hd' y Hy). lia.
Qed.

Lemma descending_split (n : nat) (l : list (PlannerHour * Z)) :
  descending l ->
  descending (firstn n l)
  /\ (forall x y, In x (firstn n l) -> In y (skipn n l) ->
                  (snd y <= snd x)%Z).
Proof.
  revert n. induction l as [| a l IH]; intros n Hd.
  - rewrite firstn_nil, skipn_nil. split; [constructor | intros x y []].
  - destruct n as [| n]; [split; [constructor | intros x y []] |].
    assert (Hd' : descending l) by (inversion Hd; subst; [constructor | assumption]).
    destruct (IH n Hd') as [H1 H2]. cbn [firstn skipn]. split.
    + destruct n as [| n]; [constructor |].
      destruct l as [| a' l]; [constructor |].
      cbn [firstn] in *. inversion Hd; subst.
      now apply descending_cons.
    + intros x y [<- | Hx] Hy.
      * apply (descending_head _ _ Hd).
        rewrite <- (firstn_skipn n l). apply in_or_app. now right.
      * now apply H2.
Qed.

(** The best windows are the three highest scores: they are at most three,
    all of them when there are fewer hours; they are hours of the forecast
    with their scores, in decreasing order of score; and no hour that is left
    out scores higher than one of them. *)
Theorem best_three (hours : list PlannerHour) :
  length (best hours) = Nat.min 3 (length hours)
  /\ descending (best hours)
  /\ (exists others,
        Permutation (best hours ++ others) (withScores hours)
        /\ (forall x y, In x (best hours) -> In y others ->
                        (snd y <= snd x)%Z)).
Proof.
  unfold best.
  pose proof (sortByScore_perm (withScores hours)) as Hp.
  pose proof (sortByScore_descending (withScores hours)) as Hd.
  destruct (descending_split 3 _ Hd) as [H1 H2].
  split; [| split; [assumption |]].
  - rewrite length_firstn, (Permutation_length Hp). unfold withScores.
    now rewrite length_map.
  - exists (skipn 3 (sortByScore (withScores hours))).
    split; [now rewrite firstn_skipn | assumption].
Qed.

(** ** The predictor screen and the handler *)

Lemma toFixed3_near (d : R) :
  0 <= d < 1e21 ->
  exists t, toFixed3 (Fin d) = Fin t /\ Rabs (t - d) <= 0.0005
            /\ (d < 0.0005 -> t = 0) /\ (0.0005 <= d -> 0 < t).
Proof.
  intros Hd. unfold toFixed3.
  destruct (leb 1e21 (Rabs d)) eqn:Ebig; reflect_cmp.
  - rewrite Rabs_right in Ebig by lra. lra.
  - replace (ltb d 0) with false by (symmetry; apply ltb_false; lra).
    pose proof (round_bounds (d * 1000)) as Hr.
    eexists. split; [reflexivity |]. repeat split.
    + apply Rabs_le. lra.
    + intros Hsmall.
      assert (round (d * 1000) = 0)%Z as ->.
      { assert (-1 < round (d * 1000))%Z by (apply lt_IZR; lra).
        assert (round (d * 1000) < 1)%Z by (apply lt_IZR; lra). lia. }
      lra.
    + intros Hbig.
      assert (0 < round (d * 1000))%Z by (apply lt_IZR; lra).
      apply IZR_lt in H. lra.
Qed.

(** A request that the predictor screen sends is never unauthorized; the
    handler refuses it with 400 "Invalid distance_km" when the distance is
    below half a metre, which rounds to 0.000 km, when it is infinite, and
    when it is 1e21 km or more, which the server reads as NaN; otherwise it
    takes as its target the distance rounded to the metre. *)
Theorem predictRequest_target
  (unit : UnitSystem) (v : num) (stored : option string)
  (who : Identity) (q : option num)
  (fetched : option (list (option Activity))) (now : Date) :
  predictRequest stored (distKm unit v) = Returned (who, q) ->
  let response := value (predictPerformance (requestOf who q) fetched now) in
  (exists u, stored = Some u /\ getUserId who = Some u)
  /\ response <> ErrorJson 401 "Unauthorized"
  /\ (distKm unit v = PInf -> response = ErrorJson 400 "Invalid distance_km")
  /\ (forall d, distKm unit v = Fin d -> d < 0.0005 \/ 1e21 <= d ->
        response = ErrorJson 400 "Invalid distance_km")
  /\ (forall d, distKm unit v = Fin d -> 0.0005 <= d < 1e21 ->
        exists t, targetKmOf (requestOf who q) = Fin t
                  /\ 0 < t /\ Rabs (t - d) <= 0.0005).
Proof.
  unfold predictRequest.
  destruct stored as [u |]; [| discriminate].
  destruct (String.eqb u "") eqn:Eu; [discriminate |].
  apply String.eqb_neq in Eu.
  destruct (falsy (distKm unit v)) eqn:Ef; [discriminate |].
  intros H. injection H as <- <-.
  assert (Hid : getUserId {| req_user_id := None; req_session_userId := None;
                             req_header := JString u |} = Some u).
  { unfold getUserId, truthyField, truthyString, orElse. cbn.
    apply String.eqb_neq in Eu. now rewrite Eu. }
  assert (Hnonneg : forall d, distKm unit v = Fin d -> 0 < d).
  { intros d Hd. rewrite Hd in Ef. cbn [falsy] in Ef. reflect_cmp.
    unfold distKm in Hd. destruct v as [r | | |]; try discriminate;
      try (injection Hd as <-; congruence).
    destruct (leb r 0) eqn:Er; [injection Hd as <-; congruence |].
    reflect_cmp. destruct unit; injection Hd as <-; [assumption |].
    unfold miToKm. apply Rdiv_lt_0_compat; lra. }
  split; [now exists u |]. split.
  - intros H401. apply predictPerformance_401 in H401.
    unfold requestOf in H401. cbn [userId] in H401. congruence.
  - unfold predictPerformance, requestOf, targetKmOf.
    cbn [userId query_distance_km]. rewrite Hid.
    split; [| split].
    + intros ->. reflexivity.
    + intros d Hd [Hsmall | Hbig]; rewrite Hd.
      * destruct (toFixed3_near d ltac:(specialize (Hnonneg d Hd); lra))
          as (t & -> & _ & Ht & _).
        rewrite (Ht Hsmall). decide_cmp. reflexivity.
      * unfold toFixed3. rewrite Rabs_right by lra. decide_cmp. reflexivity.
    + intros d Hd Hbig. rewrite Hd.
      destruct (toFixed3_near d ltac:(lra)) as (t & -> & Hnear & _ & Ht).
      exists t. repeat split; auto. apply Ht. lra.
Qed.

Lemma predictRequest_target_witness :
  value (predictPerformance
           (requestOf (mkIdentity None None (JString "athlete"))
                      (Some (toFixed3 (Fin 0.0004))))
           None 0)
  = ErrorJson 400 "Invalid distance_km".
Proof.
  assert (E : distKm Km (Fin 0.0004) = Fin 0.0004).
  { unfold distKm. decide_cmp. reflexivity. }
  assert (H : predictRequest (Some "athlete"%string) (distKm Km (Fin 0.0004))
              = Returned (mkIdentity None None (JString "athlete"),
                          Some (toFixed3 (Fin 0.0004)))).
  { rewrite E. unfold predictRequest, falsy. decide_cmp. reflexivity. }
  destruct (predictRequest_target Km (Fin 0.0004) _ _ _ None 0%Z H)
    as (_ & _ & _ & Hsmall & _).
  apply (Hsmall 0.0004 E). left. lra.
Defined.

(** ** Arithmetic that stays defined *)

(** Whatever the request and the activities, the handler divides by nothing
    that is zero, and the points whose logarithms the fit takes have a
    distance above [MIN_DISTANCE_M] and a positive moving time. *)
Theorem predictPerformance_arithmetic_defined
  (req : Request) (fetched : option (list (option Activity))) (now : Date) :
  Forall (fun d => d <> 0) (divisors (predictPerformance req fetched now))
  /\ match fetched with
     | Some acts =>
         Forall (fun p => MIN_DISTANCE_M < distance p /\ 0 < movingTime p)
                (value (outlierFilter (value (pauseFilter (normalize acts)))))
     | None => True
     end.
Proof.
  split.
  - apply Forall_forall. intros d. apply predictPerformance_divisors.
  - destruct fetched as [acts |]; [| exact I].
    apply Forall_forall. intros p.
    rewrite value_outlierFilter, filter_In, value_pauseFilter, filter_In.
    intros [[Hp _] _]. now apply normalize_In in Hp as (_ & Hd & Ht).
Qed.

(** ** The type labels of runs *)

(** [mapStravaAct] takes an activity for a run exactly when its type is one
    of the eight spellings of "run": labels such as "TrailRun" or
    "VirtualRun" are not runs for the predictor. *)
Theorem isRun_spellings (s : string) :
  isRun (Some s) = true
  <-> In s ["run"; "ruN"; "rUn"; "rUN"; "Run"; "RuN"; "RUn"; "RUN"]%string.
Proof.
  rewrite isRun_case_insensitive. split.
  - intros (c1 & c2 & c3 & E & [-> | ->] & [-> | ->] & [-> | ->]);
      injection E as ->; simpl; tauto.
  - intros H. simpl in H.
    repeat (destruct H as [<- | H];
            [do 3 eexists; split; [reflexivity |]; repeat split; auto |]).
    destruct H.
Qed.
